(** * lintnet: module-reference parsing and the lint evaluation pipeline

    A shallow embedding of
      - pkg/config/module.go          (validateRef, ParseModuleLine),
      - pkg/controller/lint/lint.go   (Lint, getResults, lintTarget, lint,
                                       getErrorLevel),
      - the controller's evaluate / evaluateNode, and
      - LintFileParser.Parse and LintFileEvaluator.Evaluate(s), parseResult,
    followed by the properties of these functions. *)

From Stdlib Require Import ZArith Ascii.
From stdpp Require Import base tactics option list strings gmap.

Local Open Scope Z_scope.

(** * Go strings

    A Go string is held as the list of runes that ranging over it yields; a
    byte that begins no well-formed UTF-8 sequence counts as one rune, which
    is neither white space nor any character the code looks for. Every such
    character ('/', '@', ':', '!', the hexadecimal digits) is a one-byte
    ASCII character, for which searching by byte and searching by rune find
    the same places. *)

Abbreviation rune := Z (only parsing).
Abbreviation gostring := (list Z).

Definition rune_of (a : ascii) : rune := Z.of_N (N_of_ascii a).
Arguments rune_of a%_char.

(** A literal of the source, rune by rune. *)
Fixpoint str (s : String.string) : gostring :=
  match s with
  | String.EmptyString => []
  | String.String a s' => rune_of a :: str s'
  end.

(** Go's [error]: nil-able, carrying the text that [Error()] returns. *)
Abbreviation error := (list Z) (only parsing).

(** A (value, error) return. *)
Inductive res (A : Type) : Type :=
| Ok (a : A)
| Err (e : error).
Arguments Ok {A} a.
Arguments Err {A} e.

(** fmt.Errorf("<text>: %w", err), as the text of the error it makes. *)
Definition fmt_Errorf (text : gostring) (err : error) : error :=
  text ++ [rune_of ":"; rune_of " "] ++ err.

(** Go's [any] (interface{}): a dynamic type and a value of that type. *)
Record any : Type := Dyn { dyn_type : Type; dyn_val : dyn_type }.

(** ** package unicode *)

Module unicode.

(** The White_Space range table, as (lo, hi) inclusive, the strided entries
    of the table written out. *)
Definition White_Space : list (Z * Z) :=
  [ (0x0009, 0x000d); (0x0020, 0x0020); (0x0085, 0x0085); (0x00a0, 0x00a0);
    (0x1680, 0x1680); (0x2000, 0x200a); (0x2028, 0x2029); (0x202f, 0x202f);
    (0x205f, 0x205f); (0x3000, 0x3000) ].

Definition in_table (tab : list (Z * Z)) (r : rune) : bool :=
  existsb (fun '(lo, hi) => (lo <=? r) && (r <=? hi)) tab.

(** unicode.IsSpace: the Latin-1 characters are a switch of their own, the
    rest is looked up in White_Space. *)
Definition IsSpace (r : rune) : bool :=
  if (0 <=? r) && (r <=? 0xFF) then
    match r with
    | 9 | 10 | 11 | 12 | 13 | 32 | 0x85 | 0xA0 => true
    | _ => false
    end
  else in_table White_Space r.

End unicode.

(** ** package strings

    [Split] and [Cut] are given for a separator of one character, which is
    how every caller below uses them. *)

Module strings.

Fixpoint HasPrefix (s prefix : gostring) {struct prefix} : bool :=
  match prefix, s with
  | [], _ => true
  | p :: prefix', c :: s' => (c =? p) && HasPrefix s' prefix'
  | _ :: _, [] => false
  end.

Definition HasSuffix (s suffix : gostring) : bool :=
  (length suffix <=? length s)%nat
  && bool_decide (drop (length s - length suffix) s = suffix).

Definition TrimPrefix (s prefix : gostring) : gostring :=
  if HasPrefix s prefix then drop (length prefix) s else s.

(** TrimLeftFunc drops the runes satisfying [f] from the front. *)
Fixpoint TrimLeftFunc (s : gostring) (f : rune -> bool) : gostring :=
  match s with
  | [] => []
  | c :: s' => if f c then TrimLeftFunc s' f else s
  end.

(** TrimRightFunc keeps the string up to and including its last rune that
    does not satisfy [f]. *)
Fixpoint TrimRightFunc (s : gostring) (f : rune -> bool) : gostring :=
  match s with
  | [] => []
  | c :: s' =>
      match TrimRightFunc s' f with
      | [] => if f c then [] else [c]
      | t => c :: t
      end
  end.

Definition TrimFunc (s : gostring) (f : rune -> bool) : gostring :=
  TrimRightFunc (TrimLeftFunc s f) f.

Definition TrimSpace (s : gostring) : gostring := TrimFunc s unicode.IsSpace.

(** Split(s, sep): the pieces of [s] between the occurrences of [sep];
    always at least one piece. *)
Fixpoint Split (s : gostring) (sep : rune) : list gostring :=
  match s with
  | [] => [[]]
  | c :: s' =>
      if c =? sep then [] :: Split s' sep
      else match Split s' sep with
           | piece :: pieces => (c :: piece) :: pieces
           | [] => [[c]]
           end
  end.

Fixpoint Join (elems : list gostring) (sep : gostring) : gostring :=
  match elems with
  | [] => []
  | [a] => a
  | a :: rest => a ++ sep ++ Join rest sep
  end.

(** Cut(s, sep) = (before, after, found), around the first [sep]. *)
Fixpoint Cut (s : gostring) (sep : rune) : gostring * gostring * bool :=
  match s with
  | [] => ([], [], false)
  | c :: s' =>
      if c =? sep then ([], s', true)
      else let '(before, after, found) := Cut s' sep in
           (c :: before, after, found)
  end.

End strings.

(** ** package path/filepath

    The functions as they are on a system whose path separator is '/',
    where no path has a volume name. *)

Module filepath.

Definition Separator : rune := rune_of "/".

Definition IsPathSeparator (c : rune) : bool := c =? Separator.

(** FromSlash replaces each '/' by the separator: no change here. *)
Definition FromSlash (path : gostring) : gostring := path.

(** The bytes of [path] up to its first separator, and [path] from that
    separator on: what the loop
    [for ; r < n && !os.IsPathSeparator(path[r]); r++ { out.append(path[r]) }]
    copies and where it stops. *)
Fixpoint component (path : gostring) : gostring :=
  match path with
  | [] => []
  | c :: rest => if IsPathSeparator c then [] else c :: component rest
  end.

Fixpoint afterComponent (path : gostring) : gostring :=
  match path with
  | [] => []
  | c :: rest => if IsPathSeparator c then path else afterComponent rest
  end.

(** r == n || os.IsPathSeparator(path[r]), for [path] from r on *)
Definition endOrSeparator (path : gostring) : bool :=
  match path with
  | [] => true
  | c :: _ => IsPathSeparator c
  end.

(** The output buffer of Clean is held newest byte first. This is
    [out.w--; for out.w > dotdot && !os.IsPathSeparator(out.index(out.w)) { out.w-- }]:
    it takes the last element off, and the separator before it. *)
Fixpoint backup (out : list rune) (dotdot : nat) : list rune :=
  match out with
  | [] => []
  | c :: out' =>
      if (dotdot <? length out')%nat && negb (IsPathSeparator c)
      then backup out' dotdot
      else out'
  end.

(** The loop [for r < n] of Clean, on [path] from r on; every turn moves r
    forward, so that the length of the path is fuel enough. *)
Fixpoint Clean_loop (fuel : nat) (rooted : bool) (path : gostring)
    (out : list rune) (dotdot : nat) : list rune :=
  match fuel with
  | O => out
  | S fuel' =>
      match path with
      | [] => out
      | c :: rest =>
          if IsPathSeparator c then
            (* empty path element *)
            Clean_loop fuel' rooted rest out dotdot
          else if (c =? rune_of ".") && endOrSeparator rest then
            (* . element *)
            Clean_loop fuel' rooted rest out dotdot
          else if (c =? rune_of ".")
                  && match rest with
                     | d :: rest' => (d =? rune_of ".") && endOrSeparator rest'
                     | [] => false
                     end then
            (* .. element: remove to last separator *)
            let rest' := drop 1 rest in
            if (dotdot <? length out)%nat then
              (* can backtrack *)
              Clean_loop fuel' rooted rest' (backup out dotdot) dotdot
            else if negb rooted then
              (* cannot backtrack, but not rooted, so append .. element *)
              let out1 := if (0 <? length out)%nat then Separator :: out else out in
              let out2 := rune_of "." :: rune_of "." :: out1 in
              Clean_loop fuel' rooted rest' out2 (length out2)
            else Clean_loop fuel' rooted rest' out dotdot
          else
            (* real path element: add slash if needed, copy element *)
            let out1 :=
              if (rooted && negb (length out =? 1)%nat)
                 || (negb rooted && negb (length out =? 0)%nat)
              then Separator :: out else out in
            Clean_loop fuel' rooted (afterComponent path)
                       (reverse (component path) ++ out1) dotdot
      end
  end.

Definition Clean (path : gostring) : gostring :=
  match path with
  | [] => str "."
  | c :: rest =>
      let rooted := IsPathSeparator c in
      let out :=
        if rooted then Clean_loop (length path) rooted rest [Separator] 1
        else Clean_loop (length path) rooted path [] 0 in
      (* Turn empty string into "." *)
      match out with
      | [] => str "."
      | _ => FromSlash (reverse out)
      end
  end.

(** Join: the elements from the first non-empty one on, joined by the
    separator and cleaned; the empty string when there is none. *)
Fixpoint Join (elem : list gostring) : gostring :=
  match elem with
  | [] => []
  | e :: rest =>
      if bool_decide (e <> []) then Clean (strings.Join elem [Separator])
      else Join rest
  end.

(** [plainElement c]: [c] is a path element that Clean leaves as it is, a
    name that is not empty, holds no separator and is neither "." nor
    "..". *)
Definition plainElement (c : gostring) : Prop :=
  c <> [] /\ (Separator ∉ c) /\ c <> str "." /\ c <> str "..".

End filepath.

(** * package config (pkg/config/module.go) *)

Module config.

Record ModuleArchive : Type := {
  Type_ : gostring;
  Host : gostring;
  RepoOwner : gostring;
  RepoName : gostring;
  Ref : gostring;
  Tag : gostring;
}.

Record ModuleGlob : Type := {
  ID : gostring;
  SlashPath : gostring;
  Archive : option ModuleArchive;          (* *ModuleArchive *)
  Config : option (gmap gostring any);     (* map[string]interface{} *)
  Excluded : bool;
}.

(** The character class [a-fA-F0-9]. *)
Definition hexDigit (r : rune) : bool :=
  ((rune_of "a" <=? r) && (r <=? rune_of "f"))
  || ((rune_of "A" <=? r) && (r <=? rune_of "F"))
  || ((rune_of "0" <=? r) && (r <=? rune_of "9")).

(** [hex40 h]: [h] is a string of exactly 40 hexadecimal digits, a full
    commit hash. *)
Definition hex40 (h : gostring) : Prop :=
  length h = 40%nat /\ Forall (fun c => hexDigit c = true) h.

(** [matchHere n s]: the pattern [a-fA-F0-9]{n} matches at the start of
    [s]. *)
Fixpoint matchHere (n : nat) (s : gostring) : bool :=
  match n with
  | O => true
  | S n' =>
      match s with
      | [] => false
      | c :: s' => hexDigit c && matchHere n' s'
      end
  end.

(** fullCommitHashPattern = regexp.MustCompile("[a-fA-F0-9]{40}"), and its
    MatchString: the pattern carries no anchors, so a match may start at
    any position of the string. *)
Fixpoint fullCommitHashPattern_MatchString (s : gostring) : bool :=
  matchHere 40 s
  || match s with
     | [] => false
     | _ :: s' => fullCommitHashPattern_MatchString s'
     end.

(** validateRef: nil ([None]) when the ref is accepted. *)
Definition validateRef (ref : gostring) : option error :=
  if fullCommitHashPattern_MatchString ref then None
  else Some (str "ref must be full commit hash").

(** elems[i], read only after the length check *)
Definition at_ (elems : list gostring) (i : nat) : gostring :=
  default [] (elems !! i).

(** The part of ParseModuleLine after the exclusion marker is handled. *)
Definition parseTrimmed (excluded : bool) (line : gostring) : res ModuleGlob :=
  let elems := strings.Split line (rune_of "/") in
  if (length elems <? 4)%nat then Err (str "line is invalid")
  else if negb (bool_decide (at_ elems 0 = str "github.com")) then
    Err (str "module must start with 'github.com/'")
  else
    let pathAndRefAndTag := strings.Join (drop 3 elems) (str "/") in
    let '(path, refAndTag, ok) := strings.Cut pathAndRefAndTag (rune_of "@") in
    if negb ok then Err (str "ref is required")
    else
      let '(ref, tag, _) := strings.Cut refAndTag (rune_of ":") in
      match validateRef ref with
      | Some err => Err err
      | None =>
          Ok {| ID := line;
                (* append(elems[:3], ref, path): the first three elements
                   followed by ref and path; elems[1] and elems[2], read
                   below, are not among the cells append may overwrite *)
                SlashPath := strings.Join (take 3 elems ++ [ref; path]) (str "/");
                Archive := Some {| Type_ := str "github";
                                   Host := str "github.com";
                                   RepoOwner := at_ elems 1;
                                   RepoName := at_ elems 2;
                                   Ref := ref;
                                   Tag := tag |};
                Config := None;
                Excluded := excluded |}
      end.

Definition ParseModuleLine (line : gostring) : res ModuleGlob :=
  let line := strings.TrimSpace line in
  let l := strings.TrimPrefix line (str "!") in
  if bool_decide (l <> line)
  then parseTrimmed true (strings.TrimSpace l)
  else parseTrimmed false line.

(** The struct Module. *)
Record Module_ : Type := {
  Module_ID : gostring;
  Module_Archive : option ModuleArchive;
  Module_SlashPath : gostring;
  Module_Config : option (gmap gostring any);
}.

(** ModuleArchive.String: host, owner, name and ref joined by '/', then
    ':' and the tag when there is a tag. *)
Definition ModuleArchive_String (m : ModuleArchive) : gostring :=
  let a := Host m ++ str "/" ++ RepoOwner m ++ str "/" ++ RepoName m
           ++ str "/" ++ Ref m in
  if bool_decide (Tag m <> []) then a ++ str ":" ++ Tag m else a.

(** ModuleArchive.FilePath *)
Definition ModuleArchive_FilePath (m : ModuleArchive) : gostring :=
  filepath.Join [Host m; RepoOwner m; RepoName m; Ref m].

(** [plainArchive m]: host, owner, repository name and ref of [m] are plain
    path elements. *)
Definition plainArchive (m : ModuleArchive) : Prop :=
  filepath.plainElement (Host m) /\ filepath.plainElement (RepoOwner m)
  /\ filepath.plainElement (RepoName m) /\ filepath.plainElement (Ref m).

(** Module.FilePath *)
Definition Module_FilePath (m : Module_) : gostring :=
  match Module_Archive m with
  | None => filepath.FromSlash (Module_SlashPath m)
  | Some archive =>
      filepath.Join [ModuleArchive_FilePath archive;
                     filepath.FromSlash (Module_SlashPath m)]
  end.

Definition ParseImport (line : gostring) : res Module_ :=
  match ParseModuleLine line with
  | Err err => Err err
  | Ok mg =>
      Ok {| Module_ID := ID mg;
            Module_Archive := Archive mg;
            Module_SlashPath := SlashPath mg;
            Module_Config := None |}
  end.

End config.

(** * package jsonnet (pkg/jsonnet) and the evaluation trace

    The Jsonnet engine is an external collaborator: a type of parsed rule
    files, the reader that parses one, and the evaluation of a node under a
    top-level argument given as JSON text. *)

Module jsonnet.

Class Engine : Type := {
  Node : Type;
  (* ReadToNode(fs, path) *)
  ReadToNode : gostring -> res Node;
  (* NewVM(tla, importer).Evaluate(node) *)
  Evaluate : gostring -> Node -> res gostring;
}.

End jsonnet.

(** A computation returns its value, or panics ([None]), and leaves the list
    of engine invocations it made, oldest first: the top-level argument and
    the node of each. *)

Section Exec.
Context `{jsonnet.Engine}.

Definition exec (A : Type) : Type := option A * list (gostring * jsonnet.Node).

Definition exec_ret {A} (a : A) : exec A := (Some a, []).

Definition exec_bind {A B} (f : A -> exec B) (m : exec A) : exec B :=
  match m with
  | (None, w) => (None, w)
  | (Some a, w) => let '(b, w') := f a in (b, w ++ w')
  end.

(** a run-time panic *)
Definition panic {A} : exec A := (None, []).

(** vm := jsonnet.NewVM(tla, importer); vm.Evaluate(node) *)
Definition invoke (tla : gostring) (node : jsonnet.Node) : exec (res gostring) :=
  (Some (jsonnet.Evaluate tla node), [(tla, node)]).

Definition value {A} (m : exec A) : option A := fst m.
Definition trace {A} (m : exec A) : list (gostring * jsonnet.Node) := snd m.

(** s[i] = v on a slice: out of range panics. *)
Definition store {T} (s : list T) (i : nat) (v : T) : exec (list T) :=
  if decide (i < length s)%nat then exec_ret (<[i := v]> s) else panic.

(** The loop  [for i, x := range xs { results[i] = f(x) }]  from index
    [i] on. *)
Fixpoint fill_from {A T} (f : A -> exec T) (i : nat) (xs : list A)
    (results : list T) : exec (list T) :=
  match xs with
  | [] => exec_ret results
  | x :: xs' =>
      exec_bind (fun v =>
      exec_bind (fun results' => fill_from f (S i) xs' results')
                (store results i v)) (f x)
  end.

(** results := make([]T, len(xs)) followed by that loop; [zero] is the
    zero value of T (nil for a pointer). *)
Definition make_and_fill {A T} (zero : T) (f : A -> exec T) (xs : list A)
    : exec (list T) :=
  fill_from f 0 xs (replicate (length xs) zero).

End Exec.

#[global] Instance exec_mret `{jsonnet.Engine} : MRet exec := @exec_ret _.
#[global] Instance exec_mbind `{jsonnet.Engine} : MBind exec := @exec_bind _.

(** * package domain, as the evaluator uses it *)

Module domain.

Class Types : Type := {
  (* a decoded data file *)
  Data : Type;
  (* *domain.JsonnetResult, one structured finding *)
  JsonnetResult : Type;
}.

Section Types.
Context `{jsonnet.Engine} `{Types}.

(** domain.Node, with the fields that Parse fills. *)
Record Node : Type := {
  Node_ : jsonnet.Node;
  Key : gostring;
  Config : option (gmap gostring any);
  Combine : bool;
}.

(** Modelled from the spec: the declaration of domain.TopLevelArgment is
    not among the sources; the fields are those Evaluates reads and
    writes, [CombinedData] being the ordered list of the data values of
    a target, nil when it is not populated. *)
Record TopLevelArgment : Type := {
  tlaData : option Data;
  tlaCombinedData : option (list Data);
  tlaConfig : option (gmap gostring any);
}.

(** domain.Result, with the fields that Evaluates fills. *)
Record Result : Type := {
  LintFile : gostring;
  RawResult : option (list JsonnetResult);   (* []*JsonnetResult *)
  RawOutput : gostring;
  Interface : option any;
  Error : gostring;
}.
End Types.

End domain.

(** config.LintFile, with the fields that Parse reads. *)
Module configLintFile.
Record LintFile : Type := {
  Path : gostring;
  ID : gostring;
  Config : option (gmap gostring any);
}.
End configLintFile.

(** * package lint: LintFileParser and LintFileEvaluator *)

Module lint.

(** encoding/json, at the types the evaluator uses it *)
Class Json `{jsonnet.Engine} `{domain.Types} : Type := {
  (* json.Marshal(tla) *)
  Marshal : domain.TopLevelArgment -> res gostring;
  (* json.Unmarshal(result, &rs) with rs of type any *)
  Unmarshal_any : gostring -> res (option any);
  (* json.Unmarshal(result, &out) with out of type []*domain.JsonnetResult *)
  Unmarshal_results : gostring -> res (option (list domain.JsonnetResult));
}.

Section Evaluator.
Context `{jsonnet.Engine} `{domain.Types} `{!Json}.

Definition Parse (lintFile : configLintFile.LintFile) : res domain.Node :=
  match jsonnet.ReadToNode (configLintFile.Path lintFile) with
  | Err err => Err err
  | Ok node =>
      Ok {| domain.Node_ := node;
            domain.Key := configLintFile.ID lintFile;
            domain.Config := configLintFile.Config lintFile;
            domain.Combine :=
              strings.HasSuffix (configLintFile.Path lintFile)
                                (str "_combine.jsonnet") |}
  end.

(** logerr.WithFields attaches log fields to the error and leaves its
    text as it is. *)
Fixpoint Parses_from (lintFiles : list configLintFile.LintFile)
    (nodes : list domain.Node) : res (list domain.Node) :=
  match lintFiles with
  | [] => Ok nodes
  | lintFile :: rest =>
      match Parse lintFile with
      | Err err => Err err
      | Ok node => Parses_from rest (nodes ++ [node])
      end
  end.

Definition Parses (lintFiles : list configLintFile.LintFile)
    : res (list domain.Node) :=
  Parses_from lintFiles [].

(** if tla.Config == nil { tla.Config = map[string]any{} } *)
Definition ensureConfig (tla : domain.TopLevelArgment) : domain.TopLevelArgment :=
  match domain.tlaConfig tla with
  | None => {| domain.tlaData := domain.tlaData tla;
               domain.tlaCombinedData := domain.tlaCombinedData tla;
               domain.tlaConfig := Some ∅ |}
  | Some _ => tla
  end.

Definition Evaluate (tla : domain.TopLevelArgment) (lintFile : jsonnet.Node)
    : exec (res gostring) :=
  let tla := ensureConfig tla in
  match Marshal tla with
  | Err err => mret (Err (fmt_Errorf (str "marshal a top level argument as JSON") err))
  | Ok tlaB =>
      r ← invoke tlaB lintFile;
      match r with
      | Err err => mret (Err (fmt_Errorf (str "evaluate a lint file as Jsonnet") err))
      | Ok result => mret (Ok result)
      end
  end.

Definition parseResult (result : gostring)
    : option (list domain.JsonnetResult) * option any * option error :=
  match Unmarshal_any result with
  | Err err => (None, None, Some (fmt_Errorf (str "unmarshal the result as JSON") err))
  | Ok rs =>
      match Unmarshal_results result with
      | Err err => (None, rs, Some (fmt_Errorf (str "unmarshal the result as JSON") err))
      | Ok out => (out, rs, None)
      end
  end.

(** The result that one turn of the loop of Evaluates builds from what
    Evaluate returned. The write of the Error field through the pointer
    just stored is folded into the record. *)
Definition resultOf (lintFile : domain.Node) (r : res gostring) : domain.Result :=
  match r with
  | Err err =>
      {| domain.LintFile := domain.Key lintFile;
         domain.RawResult := None;
         domain.RawOutput := [];
         domain.Interface := None;
         domain.Error := err |}
  | Ok s =>
      let '(rs, a, err) := parseResult s in
      {| domain.LintFile := domain.Key lintFile;
         domain.RawResult := rs;
         domain.RawOutput := s;
         domain.Interface := a;
         domain.Error := match err with
                         | Some e => e
                         | None => []
                         end |}
  end.

(** The argument that the loop of Evaluates builds for [lintFile]. *)
Definition argumentOf (tla : domain.TopLevelArgment) (lintFile : domain.Node)
    : domain.TopLevelArgment :=
  {| domain.tlaData := domain.tlaData tla;
     domain.tlaCombinedData := domain.tlaCombinedData tla;
     domain.tlaConfig := domain.Config lintFile |}.

(** One turn of the loop of Evaluates: the pointer stored at the index
    of [lintFile]. *)
Definition evaluated (tla : domain.TopLevelArgment) (lintFile : domain.Node)
    : exec (option domain.Result) :=
  r ← Evaluate (argumentOf tla lintFile) (domain.Node_ lintFile);
  mret (Some (resultOf lintFile r)).

Definition Evaluates (tla : domain.TopLevelArgment) (lintFiles : list domain.Node)
    : exec (list (option domain.Result)) :=
  make_and_fill None (evaluated tla) lintFiles.

(** Modelled from the spec: the driver that takes the decoded data files
    of a target to Evaluates is not among the sources. Section 4.4:
    when combine is set for any rule of the target, combinedData is
    computed once per target as the ordered list of the decoded values
    of the target's data files; for every (rule, data file) pair the
    argument has data set to that file's own value for a non-combine
    rule, and combinedData set for a combine rule. *)
Definition combinedDataOf (rules : list domain.Node) (values : list domain.Data)
    : option (list domain.Data) :=
  if existsb domain.Combine rules then Some values else None.

(** Modelled from the spec: the argument of one (rule, data file) pair,
    before Evaluates puts the rule's configuration into it (the driver is
    not among the sources). *)
Definition argumentFor (combinedData : option (list domain.Data))
    (data : domain.Data) (rule : domain.Node) : domain.TopLevelArgment :=
  if domain.Combine rule
  then {| domain.tlaData := None;
          domain.tlaCombinedData := combinedData;
          domain.tlaConfig := None |}
  else {| domain.tlaData := Some data;
          domain.tlaCombinedData := None;
          domain.tlaConfig := None |}.

(** Modelled from the spec: the evaluation of one (rule, data file) pair,
    by Evaluates on the argument of the pair (the driver is not among the
    sources). *)
Definition evaluatePair (combinedData : option (list domain.Data))
    (data : domain.Data) (rule : domain.Node) : exec (list (option domain.Result)) :=
  Evaluates (argumentFor combinedData data rule) [rule].

(** Modelled from the spec: the evaluation of a target, data file by data
    file and rule by rule, with combinedData computed once (the driver is
    not among the sources). *)
Definition evaluateTarget (rules : list domain.Node) (values : list domain.Data)
    : exec (list (list (list (option domain.Result)))) :=
  let combinedData := combinedDataOf rules values in
  mapM (fun data => mapM (evaluatePair combinedData data) rules) values.

End Evaluator.

End lint.

(** * package lint: the Controller (pkg/controller/lint) *)

Module controller.

Class Types : Type := {
  Data : Type;        (* Data, a parsed data file *)
  Result : Type;      (* Result, what c.parseResult makes of an evaluation *)
  Config : Type;      (* config.Config *)
  Modules : Type;     (* the list of modules of module.ListModules *)
  ModuleMap : Type;   (* the map of modules of module.ListModules *)
  Level : Type;       (* errlevel.Level *)
}.

Section Types.
Context `{jsonnet.Engine} `{Types}.

Record ParamLint : Type := {
  ErrorLevel : gostring;
  RootDir : gostring;
  ConfigFilePath : gostring;
  FilePaths : list gostring;
  Outputs : list gostring;
  OutputSuccess : bool;
}.

(** module.ParamInstall *)
Record ParamInstall : Type := { BaseDir : gostring }.

(** LintFile, with the fields that parseLintFile reads. *)
Record LintFile : Type := {
  Path : gostring;
  ModulePath : gostring;
  Param : option (gmap gostring any);
}.

Record Node : Type := {
  Node_ : jsonnet.Node;
  Custom : option (gmap gostring any);
  Key : gostring;
}.

(** TopLevelArgment and JsonnetEvaluateResult, with the fields that
    evaluateNode fills. *)
Record TopLevelArgment : Type := {
  tlaData : option Data;                      (* *Data *)
  tlaCustom : option (gmap gostring any);
}.

Record JsonnetEvaluateResult : Type := {
  erKey : gostring;
  erResult : gostring;
  erError : gostring;
}.

(** FileResult, with the fields that lintTarget fills, and Target, with
    the fields that it reads. *)
Record FileResult : Type := {
  Results : option (list (option Result));   (* []*Result *)
  Error : gostring;
}.

Record Target : Type := {
  LintFiles : list LintFile;
  DataFiles : list gostring;
}.
End Types.

(** The methods and packages the sources call and do not contain. The
    context and the log entry that Lint passes along decide no result and
    are left out. *)
Class Collaborators `{jsonnet.Engine} `{Types} : Type := {
  (* json.Marshal(tla) *)
  Marshal : TopLevelArgment -> res gostring;
  (* c.readJsonnets(lintFiles) *)
  readJsonnets : list LintFile -> res (list Node);
  (* c.parseDataFile(dataFile) *)
  parseDataFile : gostring -> res (option Data);
  (* c.parseResult(result) *)
  parseResult : option JsonnetEvaluateResult -> option Result;
  (* c.findAndReadConfig(path, cfg) *)
  findAndReadConfig : gostring -> res Config;
  (* module.ListModules(cfg) *)
  ListModules : Config -> res (Modules * ModuleMap);
  (* c.installModules(ctx, logE, param, modMap) *)
  installModules : ParamInstall -> ModuleMap -> option error;
  (* c.findFiles(cfg, modulesList, rootDir) *)
  findFiles : Config -> Modules -> gostring -> res (list Target);
  (* c.filterTargets(targets, filePaths) *)
  filterTargets : list Target -> list gostring -> list Target;
  (* errlevel.Error and errlevel.New(s) *)
  errlevel_Error : Level;
  errlevel_New : gostring -> Level * option error;
  (* c.Output(logE, cfg, errLevel, results, outputs, outputSuccess) *)
  Output : Config -> Level -> gmap gostring FileResult -> list gostring -> bool
           -> option error;
}.

Section Controller.
Context `{jsonnet.Engine} `{Types} `{!Collaborators}.

Definition parseLintFile (lintFile : LintFile) : res Node :=
  match jsonnet.ReadToNode (Path lintFile) with
  | Err err => Err err
  | Ok ja =>
      let key := if bool_decide (ModulePath lintFile <> [])
                 then ModulePath lintFile else Path lintFile in
      Ok {| Node_ := ja; Key := key; Custom := Param lintFile |}
  end.

Fixpoint parseLintFiles_from (lintFiles : list LintFile) (jsonnetAsts : list Node)
    : res (list Node) :=
  match lintFiles with
  | [] => Ok jsonnetAsts
  | lintFile :: rest =>
      match parseLintFile lintFile with
      | Err err => Err err
      | Ok node => parseLintFiles_from rest (jsonnetAsts ++ [node])
      end
  end.

Definition parseLintFiles (lintFiles : list LintFile) : res (list Node) :=
  parseLintFiles_from lintFiles [].

(** The argument that evaluateNode builds: the data, and the rule's
    parameters or, when these are nil, an empty map. *)
Definition argumentOf (data : option Data) (ja : Node) : TopLevelArgment :=
  {| tlaData := data;
     tlaCustom := match Custom ja with
                  | None => Some ∅
                  | Some c => Some c
                  end |}.

Definition evaluateNode (data : option Data) (ja : Node)
    : exec (option JsonnetEvaluateResult) :=
  let tla := argumentOf data ja in
  match Marshal tla with
  | Err err =>
      mret (Some {| erKey := Key ja;
                    erResult := [];
                    erError := fmt_Errorf (str "marshal a top level argument as JSON") err |})
  | Ok tlaB =>
      r ← invoke tlaB (Node_ ja);
      match r with
      | Err err =>
          mret (Some {| erKey := Key ja; erResult := []; erError := err |})
      | Ok result =>
          mret (Some {| erKey := Key ja; erResult := result; erError := [] |})
      end
  end.

Definition evaluate (data : option Data) (jsonnetAsts : list Node)
    : exec (list (option JsonnetEvaluateResult)) :=
  make_and_fill None (evaluateNode data) jsonnetAsts.

Definition lint (dataFile : gostring) (jsonnetAsts : list Node)
    : exec (res (list (option Result))) :=
  match parseDataFile dataFile with
  | Err err => mret (Err err)
  | Ok tla =>
      results ← evaluate tla jsonnetAsts;
      rs ← make_and_fill None (fun result => mret (parseResult result)) results;
      mret (Ok rs)
  end.

(** The FileResult that lintTarget writes for what lint returned. *)
Definition fileResultOf (r : res (list (option Result))) : FileResult :=
  match r with
  | Err err => {| Results := None; Error := err |}
  | Ok rs => {| Results := Some rs; Error := [] |}
  end.

(** The loop of lintTarget over the data files; [results] is the map the
    caller shares with it. *)
Fixpoint lintTarget_from (dataFiles : list gostring) (jsonnetAsts : list Node)
    (results : gmap gostring FileResult) : exec (gmap gostring FileResult) :=
  match dataFiles with
  | [] => mret results
  | dataFile :: rest =>
      r ← lint dataFile jsonnetAsts;
      lintTarget_from rest jsonnetAsts (<[dataFile := fileResultOf r]> results)
  end.

(** lintTarget returns the error and leaves its writes in the map. *)
Definition lintTarget (target : Target) (results : gmap gostring FileResult)
    : exec (gmap gostring FileResult * option error) :=
  match readJsonnets (LintFiles target) with
  | Err err => mret (results, Some err)
  | Ok jsonnetAsts =>
      results' ← lintTarget_from (DataFiles target) jsonnetAsts results;
      mret (results', None)
  end.

Fixpoint getResults_from (targets : list Target) (results : gmap gostring FileResult)
    : exec (res (gmap gostring FileResult)) :=
  match targets with
  | [] => mret (Ok results)
  | target :: rest =>
      r ← lintTarget target results;
      match r with
      | (_, Some err) => mret (Err err)
      | (results', None) => getResults_from rest results'
      end
  end.

Definition getResults (targets : list Target) : exec (res (gmap gostring FileResult)) :=
  getResults_from targets ∅.

Definition getErrorLevel (errorLevel : gostring) : Level * option error :=
  if bool_decide (errorLevel = []) then (errlevel_Error, None)
  else
    let '(ll, err) := errlevel_New errorLevel in
    match err with
    | Some e => (ll, Some e)
    | None => (ll, None)
    end.

Definition Lint (param : ParamLint) : exec (option error) :=
  match findAndReadConfig (ConfigFilePath param) with
  | Err err => mret (Some err)
  | Ok cfg =>
  match ListModules cfg with
  | Err err => mret (Some (fmt_Errorf (str "list modules") err))
  | Ok (modulesList, modMap) =>
  match installModules {| BaseDir := RootDir param |} modMap with
  | Some err => mret (Some err)
  | None =>
  match findFiles cfg modulesList (RootDir param) with
  | Err err => mret (Some err)
  | Ok targets =>
      let targets :=
        if (0 <? length (FilePaths param))%nat
        then filterTargets targets (FilePaths param) else targets in
      match getErrorLevel (ErrorLevel param) with
      | (_, Some err) => mret (Some err)
      | (errLevel, None) =>
          r ← getResults targets;
          match r with
          | Err err => mret (Some err)
          | Ok results =>
              mret (Output cfg errLevel results (Outputs param) (OutputSuccess param))
          end
      end
  end end end end.

End Controller.

End controller.

(** * A small world to run the pipeline in

    Rules are named by their path: "fail.jsonnet" fails in the engine,
    "object.jsonnet" prints an object, every other rule prints the empty
    list of findings. *)

Module demo.

#[export] Instance engine : jsonnet.Engine := {|
  jsonnet.Node := gostring;
  jsonnet.ReadToNode path :=
    if bool_decide (path = str "missing.jsonnet")
    then Err (str "open missing.jsonnet: file does not exist")
    else Ok path;
  jsonnet.Evaluate tla node :=
    if bool_decide (node = str "fail.jsonnet") then Err (str "RUNTIME ERROR: boom")
    else if bool_decide (node = str "object.jsonnet") then Ok (str "{}")
    else Ok (str "[]");
|}.

(** Data values are carried as their JSON text; a finding as its message. *)
#[export] Instance domain_types : domain.Types := {|
  domain.Data := gostring;
  domain.JsonnetResult := gostring;
|}.

Definition show_combined (cd : option (list gostring)) : gostring :=
  match cd with
  | None => str "null"
  | Some values => str "[" ++ strings.Join values (str ",") ++ str "]"
  end.

#[export] Instance json : lint.Json := {|
  lint.Marshal tla :=
    Ok (str "data=" ++ default (str "null") (domain.tlaData tla)
        ++ str " combined_data=" ++ show_combined (domain.tlaCombinedData tla));
  lint.Unmarshal_any s :=
    if bool_decide (s = str "[]") then Ok (Some (Dyn (list unit) []))
    else if bool_decide (s = str "{}") then Ok (Some (Dyn unit tt))
    else Err (str "invalid character");
  lint.Unmarshal_results s :=
    if bool_decide (s = str "[]") then Ok (Some [])
    else Err (str "json: cannot unmarshal object into Go value");
|}.

Definition rule (path : gostring) : domain.Node :=
  {| domain.Node_ := path;
     domain.Key := path;
     domain.Config := None;
     domain.Combine := strings.HasSuffix path (str "_combine.jsonnet") |}.

Definition tla (data : gostring) : domain.TopLevelArgment :=
  {| domain.tlaData := Some data;
     domain.tlaCombinedData := None;
     domain.tlaConfig := None |}.

(** The same argument, with an empty configuration put there by the
    caller. *)
Definition tla_configured (data : gostring) : domain.TopLevelArgment :=
  {| domain.tlaData := Some data;
     domain.tlaCombinedData := None;
     domain.tlaConfig := Some ∅ |}.

(** The spec's example of a target: a plain rule and a combine rule, and
    two data files with the values 1 and 2. *)
Definition rules : list domain.Node :=
  [rule (str "ok.jsonnet"); rule (str "x_combine.jsonnet")].

Definition values : list domain.Data := [str "1"; str "2"].

#[export] Instance controller_types : controller.Types := {|
  controller.Data := gostring;
  controller.Result := gostring;
  controller.Config := unit;
  controller.Modules := unit;
  controller.ModuleMap := unit;
  controller.Level := nat;
|}.

Definition lintFile (path : gostring) : controller.LintFile :=
  {| controller.Path := path; controller.ModulePath := []; controller.Param := None |}.

Definition node (path : gostring) : controller.Node :=
  {| controller.Node_ := path; controller.Custom := None; controller.Key := path |}.

(** Two targets that share the data file "a.json". *)
Definition target1 : controller.Target :=
  {| controller.LintFiles := [lintFile (str "ok.jsonnet"); lintFile (str "fail.jsonnet")];
     controller.DataFiles := [str "a.json"; str "broken.json"] |}.

Definition target2 : controller.Target :=
  {| controller.LintFiles := [lintFile (str "ok.jsonnet")];
     controller.DataFiles := [str "a.json"; str "b.json"] |}.

Definition targets : list controller.Target := [target1; target2].

(** A target with a rule file that cannot be read. *)
Definition target3 : controller.Target :=
  {| controller.LintFiles := [lintFile (str "missing.jsonnet")];
     controller.DataFiles := [str "c.json"] |}.

(** The severity levels of the spec's example: debug < info < warn < error. *)
Definition level_of (s : gostring) : nat * option error :=
  if bool_decide (s = str "debug") then (0%nat, None)
  else if bool_decide (s = str "info") then (1%nat, None)
  else if bool_decide (s = str "warn") then (2%nat, None)
  else if bool_decide (s = str "error") then (3%nat, None)
  else (3%nat, Some (str "invalid error level")).

#[export] Instance collaborators : controller.Collaborators := {|
  controller.Marshal tla :=
    Ok (str "data=" ++ default (str "null") (controller.tlaData tla));
  controller.readJsonnets := controller.parseLintFiles;
  controller.parseDataFile path :=
    if bool_decide (path = str "broken.json") then Err (str "invalid character")
    else Ok (Some path);
  controller.parseResult r :=
    (fun er => controller.erKey er ++ str ": " ++ controller.erResult er
               ++ controller.erError er) <$> r;
  controller.findAndReadConfig _ := Ok tt;
  controller.ListModules _ := Ok (tt, tt);
  controller.installModules _ _ := None;
  controller.findFiles _ _ _ := Ok targets;
  controller.filterTargets ts filePaths :=
    (fun t => {| controller.LintFiles := controller.LintFiles t;
                 controller.DataFiles :=
                   filter (fun d => d ∈ filePaths) (controller.DataFiles t) |}) <$> ts;
  controller.errlevel_Error := 3%nat;
  controller.errlevel_New := level_of;
  controller.Output _ _ _ _ _ := None;
|}.

Definition param (errorLevel : gostring) : controller.ParamLint :=
  {| controller.ErrorLevel := errorLevel;
     controller.RootDir := str "/root";
     controller.ConfigFilePath := str "lintnet.yaml";
     controller.FilePaths := [];
     controller.Outputs := [];
     controller.OutputSuccess := false |}.

End demo.

(** * Sample inputs *)

Module sample.

(** a full commit hash: 40 hexadecimal digits *)
Definition hash : gostring := str "0123456789abcdef0123456789ABCDEF01234567".

(** a declaration line of the documented form, with a tag *)
Definition line : gostring :=
  str "github.com/o/r/p@0123456789abcdef0123456789ABCDEF01234567:tag".

(** the same module, excluded *)
Definition excluded_line : gostring :=
  str "!github.com/o/r/p@0123456789abcdef0123456789ABCDEF01234567:tag".

(** a declaration whose ref has 41 hexadecimal digits *)
Definition long_ref_line : gostring :=
  str "github.com/o/r/p@0123456789abcdef0123456789ABCDEF012345678".

(** the archive of that module, and the same archive with another type
    and tag *)
Definition archive : config.ModuleArchive :=
  {| config.Type_ := str "github";
     config.Host := str "github.com";
     config.RepoOwner := str "o";
     config.RepoName := str "r";
     config.Ref := hash;
     config.Tag := str "tag" |}.

Definition archive_retagged : config.ModuleArchive :=
  {| config.Type_ := str "git";
     config.Host := str "github.com";
     config.RepoOwner := str "o";
     config.RepoName := str "r";
     config.Ref := hash;
     config.Tag := str "v2" |}.

(** the same archive with another type only *)
Definition archive_retyped : config.ModuleArchive :=
  {| config.Type_ := str "git";
     config.Host := str "github.com";
     config.RepoOwner := str "o";
     config.RepoName := str "r";
     config.Ref := hash;
     config.Tag := str "tag" |}.

End sample.

(** Closed decidable goals, settled by evaluation. *)
Ltac by_compute := apply (bool_decide_unpack _); vm_compute; exact I.

(** * Facts about the string functions *)

Section StringFacts.
Import strings.
Implicit Types (s t a b : gostring) (c sep : rune) (f : rune -> bool).

Lemma TrimLeftFunc_keep f c s :
  f c = false -> TrimLeftFunc (c :: s) f = c :: s.
Proof. intros Hc. simpl. by rewrite Hc. Qed.

Lemma TrimRightFunc_cons f c s :
  TrimRightFunc (c :: s) f =
  match TrimRightFunc s f with
  | [] => if f c then [] else [c]
  | t => c :: t
  end.
Proof. done. Qed.

Lemma TrimRightFunc_cons_keep f c s :
  f c = false -> TrimRightFunc (c :: s) f = c :: TrimRightFunc s f.
Proof. intros Hc. simpl. destruct (TrimRightFunc s f); by rewrite ?Hc. Qed.

Lemma TrimRightFunc_app_keep f a c t :
  f c = false -> TrimRightFunc (a ++ c :: t) f = a ++ c :: TrimRightFunc t f.
Proof.
  intros Hc. induction a as [|x a IH].
  - by apply TrimRightFunc_cons_keep.
  - change ((x :: a) ++ c :: t) with (x :: (a ++ c :: t)).
    cbn [TrimRightFunc]. rewrite IH. by destruct a.
Qed.

Lemma TrimRightFunc_idemp f s :
  TrimRightFunc (TrimRightFunc s f) f = TrimRightFunc s f.
Proof.
  induction s as [|c s IH]; [done|].
  rewrite TrimRightFunc_cons. destruct (TrimRightFunc s f) as [|x u] eqn:E.
  - destruct (f c) eqn:Hc; [done|]. simpl. by rewrite Hc.
  - by rewrite TrimRightFunc_cons, IH.
Qed.

Lemma Trim_left_right_comm f s :
  TrimLeftFunc (TrimRightFunc s f) f = TrimRightFunc (TrimLeftFunc s f) f.
Proof.
  induction s as [|c s IH]; [done|].
  destruct (f c) eqn:Hc.
  - cbn [TrimLeftFunc]. rewrite Hc, <- IH, TrimRightFunc_cons.
    destruct (TrimRightFunc s f) as [|x u]; [by rewrite Hc|].
    cbn [TrimLeftFunc]. by rewrite Hc.
  - rewrite (TrimLeftFunc_keep f c s Hc).
    rewrite (TrimRightFunc_cons_keep f c s Hc).
    by apply TrimLeftFunc_keep.
Qed.

Lemma TrimLeftFunc_idemp f s :
  TrimLeftFunc (TrimLeftFunc s f) f = TrimLeftFunc s f.
Proof.
  induction s as [|c s IH]; [done|].
  simpl. destruct (f c) eqn:Hc; [done|]. simpl. by rewrite Hc.
Qed.

(** Trimming on the right first changes nothing for TrimFunc. *)
Lemma TrimFunc_TrimRightFunc f s :
  TrimFunc (TrimRightFunc s f) f = TrimFunc s f.
Proof.
  unfold TrimFunc.
  by rewrite Trim_left_right_comm, TrimRightFunc_idemp.
Qed.

Lemma TrimFunc_idemp f s : TrimFunc (TrimFunc s f) f = TrimFunc s f.
Proof.
  unfold TrimFunc.
  rewrite (Trim_left_right_comm f (TrimLeftFunc s f)).
  by rewrite TrimLeftFunc_idemp, TrimRightFunc_idemp.
Qed.

Lemma TrimRightFunc_last f s :
  (forall c, last s = Some c -> f c = false) -> TrimRightFunc s f = s.
Proof.
  induction s as [|c s IH]; [done|]. intros Hl.
  rewrite TrimRightFunc_cons. destruct s as [|d s].
  - simpl. by rewrite (Hl c).
  - rewrite IH; [done|]. intros e He. apply Hl. by rewrite last_cons, He.
Qed.

Lemma Split_nonempty s sep : Split s sep <> [].
Proof.
  destruct s as [|c s]; [done|]. simpl.
  destruct (c =? sep); [done|]. by destruct (Split s sep).
Qed.

Lemma Split_app s t sep :
  sep ∉ s -> Split (s ++ sep :: t) sep = s :: Split t sep.
Proof.
  induction s as [|c s IH]; intros Hs.
  - simpl. by rewrite Z.eqb_refl.
  - apply not_elem_of_cons in Hs as [Hc Hs]. simpl.
    destruct (Z.eqb_spec c sep) as [->|_]; [done|]. by rewrite IH.
Qed.

Lemma Join_Split s sep : Join (Split s sep) [sep] = s.
Proof.
  induction s as [|c s IH]; [done|]. simpl.
  destruct (Z.eqb_spec c sep) as [->|_].
  - pose proof (Split_nonempty s sep).
    cbn [Join]. destruct (Split s sep) eqn:E; [done|]. by rewrite IH.
  - pose proof (Split_nonempty s sep).
    destruct (Split s sep) as [|piece pieces] eqn:E; [done|].
    destruct pieces; simpl in *; by rewrite <- IH.
Qed.

Lemma Cut_app s t sep : sep ∉ s -> Cut (s ++ sep :: t) sep = (s, t, true).
Proof.
  induction s as [|c s IH]; intros Hs.
  - simpl. by rewrite Z.eqb_refl.
  - apply not_elem_of_cons in Hs as [Hc Hs]. simpl.
    destruct (Z.eqb_spec c sep) as [->|_]; [done|]. by rewrite IH.
Qed.

Lemma HasSuffix_spec s suffix :
  HasSuffix s suffix = true <-> exists stem, s = stem ++ suffix.
Proof.
  unfold HasSuffix. rewrite andb_true_iff, Nat.leb_le, bool_decide_eq_true.
  split.
  - intros [_ Hd]. exists (take (length s - length suffix) s).
    etrans; [symmetry; apply (take_drop (length s - length suffix))|].
    by rewrite Hd.
  - intros [stem ->]. rewrite length_app. split; [lia|].
    replace (length stem + length suffix - length suffix)%nat
      with (length stem) by lia.
    by rewrite drop_app_length.
Qed.
End StringFacts.

(** * Facts about module.go *)

Section ConfigFacts.
Import strings config.
Implicit Types (s t o r p h line : gostring) (c : rune).

Lemma matchHere_app n h t :
  length h = n -> Forall (fun c => hexDigit c = true) h ->
  matchHere n (h ++ t) = true.
Proof.
  intros <- Hh. induction Hh as [|c h Hc Hh IH]; [done|].
  simpl. by rewrite Hc, IH.
Qed.

Lemma matchHere_inv n s :
  matchHere n s = true ->
  exists h t, s = h ++ t /\ length h = n /\ Forall (fun c => hexDigit c = true) h.
Proof.
  revert s. induction n as [|n IH]; intros s Hm.
  - by exists [], s.
  - destruct s as [|c s]; [done|]. simpl in Hm.
    apply andb_true_iff in Hm as [Hc Hm].
    destruct (IH s Hm) as (h & t & -> & Hl & Hh).
    exists (c :: h), t. repeat split; [by simpl; rewrite Hl | by constructor].
Qed.

Lemma MatchString_cons c s :
  fullCommitHashPattern_MatchString (c :: s) =
  matchHere 40 (c :: s) || fullCommitHashPattern_MatchString s.
Proof. done. Qed.

(** What validateRef accepts: the strings that contain 40 hexadecimal
    digits in a row. *)
Lemma MatchString_spec s :
  fullCommitHashPattern_MatchString s = true <->
  exists a h b, s = a ++ h ++ b /\ hex40 h.
Proof.
  split.
  - induction s as [|c s IH].
    + simpl. done.
    + rewrite MatchString_cons. intros [Hm|Hm]%orb_true_iff.
      * destruct (matchHere_inv _ _ Hm) as (h & t & E & Hl & Hh).
        by exists [], h, t.
      * destruct (IH Hm) as (a & h & b & -> & Hh).
        by exists (c :: a), h, b.
  - intros (a & h & b & -> & Hl & Hh). induction a as [|c a IH].
    + destruct h as [|c h]; [done|].
      simpl app. rewrite MatchString_cons.
      apply orb_true_iff. left. by apply (matchHere_app 40 (c :: h) b).
    + change ((c :: a) ++ h ++ b) with (c :: (a ++ h ++ b)).
      rewrite MatchString_cons, IH. apply orb_true_r.
Qed.

Lemma validateRef_accepts ref :
  validateRef ref = None <-> exists a h b, ref = a ++ h ++ b /\ hex40 h.
Proof.
  rewrite <- MatchString_spec. unfold validateRef.
  destruct (fullCommitHashPattern_MatchString ref); split; done.
Qed.

(** A ref shorter than 40 characters is rejected. *)
Lemma validateRef_rejects_short ref :
  (length ref < 40)%nat -> validateRef ref = Some (str "ref must be full commit hash").
Proof.
  intros Hlen. unfold validateRef.
  destruct (fullCommitHashPattern_MatchString ref) eqn:Hm; [|done].
  apply MatchString_spec in Hm as (a & h & b & -> & Hl & _).
  rewrite !length_app, Hl in Hlen. lia.
Qed.

Lemma hex_not_elem h c :
  hexDigit c = false -> Forall (fun x => hexDigit x = true) h -> c ∉ h.
Proof.
  intros Hc Hh Hin. rewrite Forall_forall in Hh.
  apply Hh in Hin. congruence.
Qed.

Lemma hex40_accepted h : hex40 h -> validateRef h = None.
Proof.
  intros Hh. apply validateRef_accepts. exists [], h, [].
  by rewrite app_nil_r.
Qed.

(** ParseModuleLine after the line is trimmed and the marker taken off, on
    a line of the documented form. *)
Lemma parseTrimmed_github excluded o r p h t :
  rune_of "/" ∉ o -> rune_of "/" ∉ r -> rune_of "@" ∉ p -> hex40 h ->
  parseTrimmed excluded
    (str "github.com/" ++ o ++ str "/" ++ r ++ str "/" ++ p ++ str "@" ++ h
     ++ str ":" ++ t)
  = Ok {| ID := str "github.com/" ++ o ++ str "/" ++ r ++ str "/" ++ p
                ++ str "@" ++ h ++ str ":" ++ t;
          SlashPath := str "github.com/" ++ o ++ str "/" ++ r ++ str "/" ++ h
                       ++ str "/" ++ p;
          Archive := Some {| Type_ := str "github";
                             Host := str "github.com";
                             RepoOwner := o;
                             RepoName := r;
                             Ref := h;
                             Tag := t |};
          Config := None;
          Excluded := excluded |}.
Proof.
  intros Ho Hr Hp Hh.
  assert (Hg : rune_of "/" ∉ str "github.com") by by_compute.
  assert (Hc : rune_of ":" ∉ h).
  { apply hex_not_elem; [done | apply Hh]. }
  pose (rest := p ++ rune_of "@" :: h ++ rune_of ":" :: t).
  assert (Hsplit :
    Split (str "github.com/" ++ o ++ str "/" ++ r ++ str "/" ++ p ++ str "@"
           ++ h ++ str ":" ++ t) (rune_of "/")
    = str "github.com" :: o :: r :: Split rest (rune_of "/")).
  { change (str "github.com/" ++ o ++ str "/" ++ r ++ str "/" ++ p ++ str "@"
            ++ h ++ str ":" ++ t)
      with (str "github.com" ++ rune_of "/" :: o ++ rune_of "/" :: r
            ++ rune_of "/" :: rest).
    by rewrite !Split_app. }
  unfold parseTrimmed. rewrite Hsplit. clear Hsplit.
  assert (Hlen : (length (str "github.com" :: o :: r :: Split rest (rune_of "/"))
                  <? 4)%nat = false).
  { apply Nat.ltb_ge. pose proof (Split_nonempty rest (rune_of "/")).
    destruct (Split rest (rune_of "/")); [done | simpl; lia]. }
  rewrite Hlen. clear Hlen.
  change (at_ (str "github.com" :: o :: r :: Split rest (rune_of "/")) 0)
    with (str "github.com").
  rewrite bool_decide_eq_true_2 by done.
  change (drop 3 (str "github.com" :: o :: r :: Split rest (rune_of "/")))
    with (Split rest (rune_of "/")).
  change (str "/") with [rune_of "/"].
  rewrite Join_Split. unfold rest.
  rewrite Cut_app by done. rewrite Cut_app by done.
  rewrite (hex40_accepted h Hh).
  reflexivity.
Qed.

Lemma parseTrimmed_ID excluded line m :
  parseTrimmed excluded line = Ok m -> ID m = line.
Proof.
  unfold parseTrimmed. intros Hm.
  repeat case_match; simplify_eq; done.
Qed.

(** The marker changes the flag of the result and nothing else. *)
Lemma parseTrimmed_excluded excluded line :
  parseTrimmed excluded line =
  match parseTrimmed false line with
  | Ok m => Ok {| ID := ID m; SlashPath := SlashPath m; Archive := Archive m;
                  Config := Config m; Excluded := excluded |}
  | Err e => Err e
  end.
Proof. unfold parseTrimmed. repeat case_match; simplify_eq; done. Qed.

Lemma cons_ne_self c s : s <> c :: s.
Proof. intros E. apply (f_equal length) in E. simpl in E. lia. Qed.

Lemma ParseModuleLine_marked line :
  ParseModuleLine (str "!" ++ line) = parseTrimmed true (TrimSpace line).
Proof.
  unfold ParseModuleLine.
  change (str "!" ++ line) with (rune_of "!" :: line).
  assert (Ht : TrimSpace (rune_of "!" :: line)
               = rune_of "!" :: TrimRightFunc line unicode.IsSpace).
  { unfold TrimSpace, TrimFunc.
    rewrite TrimLeftFunc_keep by done. by rewrite TrimRightFunc_cons_keep. }
  rewrite Ht.
  change (TrimPrefix (rune_of "!" :: TrimRightFunc line unicode.IsSpace) (str "!"))
    with (TrimRightFunc line unicode.IsSpace).
  rewrite bool_decide_eq_true_2 by apply cons_ne_self.
  unfold TrimSpace. by rewrite TrimFunc_TrimRightFunc.
Qed.

Lemma ParseModuleLine_unmarked line :
  HasPrefix (TrimSpace line) (str "!") = false ->
  ParseModuleLine line = parseTrimmed false (TrimSpace line).
Proof.
  intros Hp. unfold ParseModuleLine, TrimPrefix. rewrite Hp.
  by rewrite bool_decide_eq_false_2 by (by intros []).
Qed.
End ConfigFacts.

(** * Properties of the reference parser *)

Section ParserClaims.
Import strings config.

(** C2, at the input where the code departs from it: a ref of 41
    hexadecimal digits is accepted by validateRef, and ParseModuleLine
    produces a reference whose ref is that 41-digit string. *)
Theorem validateRef_accepts_41_hex_digits :
  length (sample.hash ++ str "8") = 41%nat
  /\ Forall (fun c => hexDigit c = true) (sample.hash ++ str "8")
  /\ validateRef (sample.hash ++ str "8") = None
  /\ exists m a, ParseModuleLine sample.long_ref_line = Ok m
                 /\ Archive m = Some a
                 /\ Ref a = sample.hash ++ str "8".
Proof.
  split; [done|]. split; [by_compute|]. split; [by vm_compute|].
  eexists _, _. split; [by vm_compute|]. split; reflexivity.
Qed.

(** C3, as stated, fails: the slash path of the parsed reference begins
    with the host. *)
Lemma ParseModuleLine_slashPath_counterexample :
  exists m, ParseModuleLine sample.line = Ok m
            /\ SlashPath m = str "github.com/o/r/0123456789abcdef0123456789ABCDEF01234567/p"
            /\ SlashPath m <> str "o/r/0123456789abcdef0123456789ABCDEF01234567/p".
Proof.
  eexists. split; [by vm_compute|]. split; [reflexivity|].
  simpl. discriminate.
Qed.

(** C3, amended: for an owner [o] and a repository [r] without '/', a path
    [p] without '@', a full commit hash [h] and a tag [t] that does not end
    in white space, the line "github.com/o/r/p@h:t" parses to the
    reference with host "github.com", owner [o], repository [r], ref [h],
    tag [t] and slash path "github.com/o/r/h/p". *)
Theorem ParseModuleLine_github o r p h t :
  rune_of "/" ∉ o -> rune_of "/" ∉ r -> rune_of "@" ∉ p -> hex40 h ->
  (forall c, last t = Some c -> unicode.IsSpace c = false) ->
  ParseModuleLine
    (str "github.com/" ++ o ++ str "/" ++ r ++ str "/" ++ p ++ str "@" ++ h
     ++ str ":" ++ t)
  = Ok {| ID := str "github.com/" ++ o ++ str "/" ++ r ++ str "/" ++ p
                ++ str "@" ++ h ++ str ":" ++ t;
          SlashPath := str "github.com/" ++ o ++ str "/" ++ r ++ str "/" ++ h
                       ++ str "/" ++ p;
          Archive := Some {| Type_ := str "github";
                             Host := str "github.com";
                             RepoOwner := o;
                             RepoName := r;
                             Ref := h;
                             Tag := t |};
          Config := None;
          Excluded := false |}.
Proof.
  intros Ho Hr Hp Hh Ht.
  set (line := str "github.com/" ++ o ++ str "/" ++ r ++ str "/" ++ p
               ++ str "@" ++ h ++ str ":" ++ t).
  assert (Htrim : TrimSpace line = line).
  { unfold TrimSpace, TrimFunc.
    assert (Hl : TrimLeftFunc line unicode.IsSpace = line)
      by (by apply TrimLeftFunc_keep).
    rewrite Hl.
    assert (Hshape : line = (str "github.com/" ++ o ++ str "/" ++ r ++ str "/"
                             ++ p ++ str "@" ++ h) ++ rune_of ":" :: t).
    { unfold line. by rewrite <- !app_assoc. }
    rewrite Hshape at 1. rewrite TrimRightFunc_app_keep by done.
    by rewrite (TrimRightFunc_last _ t Ht), Hshape. }
  rewrite ParseModuleLine_unmarked; rewrite Htrim; [|done].
  by apply parseTrimmed_github.
Qed.

Lemma ParseModuleLine_github_witness :
  ParseModuleLine sample.line
  = Ok {| ID := sample.line;
          SlashPath := str "github.com/o/r/0123456789abcdef0123456789ABCDEF01234567/p";
          Archive := Some {| Type_ := str "github";
                             Host := str "github.com";
                             RepoOwner := str "o";
                             RepoName := str "r";
                             Ref := sample.hash;
                             Tag := str "tag" |};
          Config := None;
          Excluded := false |}.
Proof.
  apply (ParseModuleLine_github (str "o") (str "r") (str "p") sample.hash (str "tag")).
  - by_compute.
  - by_compute.
  - by_compute.
  - split; [done | by_compute].
  - intros c Hc. vm_compute in Hc. by simplify_eq.
Defined.

(** C7, as stated, fails: on a line that already carries the marker, a
    second marker turns a successful parse into an error. *)
Lemma ParseModuleLine_marker_counterexample :
  (exists m, ParseModuleLine sample.excluded_line = Ok m)
  /\ ParseModuleLine (str "!" ++ sample.excluded_line)
     = Err (str "module must start with 'github.com/'").
Proof. split; [eexists|]; by vm_compute. Qed.

(** C7, amended: for every declaration line that, once its surrounding
    white space is trimmed, does not itself begin with '!', parsing "!"
    followed by the line gives what parsing the line gives, with the
    excluded flag true: the same error, or the same reference in every
    field but [Excluded]. *)
Theorem ParseModuleLine_excluded line :
  HasPrefix (TrimSpace line) (str "!") = false ->
  ParseModuleLine (str "!" ++ line) =
  match ParseModuleLine line with
  | Ok m => Ok {| ID := ID m; SlashPath := SlashPath m; Archive := Archive m;
                  Config := Config m; Excluded := true |}
  | Err e => Err e
  end.
Proof.
  intros Hp.
  rewrite ParseModuleLine_marked, (ParseModuleLine_unmarked line Hp).
  apply parseTrimmed_excluded.
Qed.

Lemma ParseModuleLine_excluded_witness :
  HasPrefix (TrimSpace sample.line) (str "!") = false
  /\ ParseModuleLine (str "!" ++ sample.line) =
     match ParseModuleLine sample.line with
     | Ok m => Ok {| ID := ID m; SlashPath := SlashPath m; Archive := Archive m;
                     Config := Config m; Excluded := true |}
     | Err e => Err e
     end.
Proof.
  split; [by vm_compute|].
  apply (ParseModuleLine_excluded sample.line). by vm_compute.
Defined.

(** C8, as stated, fails: the id of an excluded declaration is not the
    text of its line. *)
Lemma ParseModuleLine_ID_counterexample :
  exists m, ParseModuleLine sample.excluded_line = Ok m
            /\ ID m = sample.line
            /\ ID m <> sample.excluded_line.
Proof.
  eexists. split; [by vm_compute|]. split; [reflexivity|].
  simpl. discriminate.
Qed.

(** C8, amended: the id of a parsed reference is the text of its line
    with the surrounding white space, one leading '!' and the white space
    after it removed; it is the line itself when the line has neither
    surrounding white space nor the marker. *)
Theorem ParseModuleLine_ID line m :
  ParseModuleLine line = Ok m ->
  ID m = TrimSpace (TrimPrefix (TrimSpace line) (str "!"))
  /\ (TrimSpace line = line -> HasPrefix line (str "!") = false -> ID m = line).
Proof.
  intros Hm.
  assert (HID : ID m = TrimSpace (TrimPrefix (TrimSpace line) (str "!"))).
  { unfold ParseModuleLine in Hm. case_bool_decide as Hl.
    - by apply parseTrimmed_ID in Hm.
    - apply parseTrimmed_ID in Hm.
      rewrite Hl, Hm. unfold TrimSpace. by rewrite TrimFunc_idemp. }
  split; [done|]. intros Ht Hp.
  rewrite HID, Ht. unfold TrimPrefix. by rewrite Hp.
Qed.

Lemma ParseModuleLine_ID_witness :
  exists m, ParseModuleLine sample.line = Ok m
            /\ ID m = TrimSpace (TrimPrefix (TrimSpace sample.line) (str "!"))
            /\ ID m = sample.line.
Proof.
  eexists. split; [by vm_compute|].
  destruct (ParseModuleLine_ID sample.line _ ltac:(by vm_compute)) as [H1 H2].
  split; [exact H1 | apply H2; by vm_compute].
Defined.
End ParserClaims.

(** * Facts about computations *)

Section ExecFacts.
Context `{jsonnet.Engine}.

Lemma exec_bind_Some {A B} (f : A -> exec B) a w :
  exec_bind f (Some a, w) = (value (f a), w ++ trace (f a)).
Proof. unfold exec_bind. by destruct (f a). Qed.

Lemma exec_eta {A} (m : exec A) : m = (value m, trace m).
Proof. by destruct m. Qed.

(** The loop that fills a slice writes the values of [f], in order, into
    the cells from [i] on, and panics at no index within the slice. *)
Lemma fill_from_spec {A T} (f : A -> exec T) xs :
  (forall x, x ∈ xs -> is_Some (value (f x))) ->
  forall i results, (i + length xs <= length results)%nat ->
  exists vs,
    Forall2 (fun x v => value (f x) = Some v) xs vs
    /\ fill_from f i xs results
       = (Some (take i results ++ vs ++ drop (i + length xs) results),
          concat (map (fun x => trace (f x)) xs)).
Proof.
  induction xs as [|x xs IH]; intros Hf i results Hlen.
  - exists []. split; [constructor|]. simpl. unfold exec_ret.
    by rewrite Nat.add_0_r, take_drop.
  - destruct (Hf x) as [v Hv]; [by left|]. simpl in Hlen.
    destruct (IH (fun y Hy => Hf y (list_elem_of_further _ _ _ Hy)) (S i) (<[i:=v]> results))
      as (vs & HF & Hfill); [rewrite length_insert; lia|].
    exists (v :: vs). split; [by constructor|].
    cbn [fill_from]. rewrite (exec_eta (f x)), Hv, exec_bind_Some.
    unfold store. rewrite decide_True by lia.
    unfold exec_ret. rewrite exec_bind_Some, Hfill. cbn [value trace fst snd].
    do 2 f_equal. rewrite (take_S_r _ _ v) by (apply list_lookup_insert_eq; lia).
    rewrite take_insert_ge by lia. rewrite drop_insert_lt by lia.
    rewrite <- app_assoc. simpl. do 4 f_equal. lia.
Qed.

Lemma make_and_fill_spec {A T} (zero : T) (f : A -> exec T) xs :
  (forall x, x ∈ xs -> is_Some (value (f x))) ->
  exists vs,
    Forall2 (fun x v => value (f x) = Some v) xs vs
    /\ make_and_fill zero f xs = (Some vs, concat (map (fun x => trace (f x)) xs)).
Proof.
  intros Hf.
  destruct (fill_from_spec f xs Hf 0 (replicate (length xs) zero))
    as (vs & HF & Hfill); [by rewrite length_replicate|].
  exists vs. split; [done|]. unfold make_and_fill. rewrite Hfill.
  simpl. rewrite drop_ge, app_nil_r; [done|].
  by rewrite length_replicate.
Qed.

Lemma concat_map_nil {A B} (g : A -> list B) xs :
  (forall x, g x = []) -> concat (map g xs) = [].
Proof. intros Hg. induction xs; simpl; by rewrite ?Hg. Qed.

(** Sequential iteration collects the values and the traces in order. *)
Lemma mapM_exec_spec {A B} (f : A -> exec B) xs :
  (forall x, x ∈ xs -> is_Some (value (f x))) ->
  exists vs,
    Forall2 (fun x v => value (f x) = Some v) xs vs
    /\ mapM f xs = (Some vs, concat (map (fun x => trace (f x)) xs)).
Proof.
  induction xs as [|x xs IH]; intros Hf.
  - by exists [].
  - destruct (Hf x) as [v Hv]; [by left|].
    destruct IH as (vs & HF & Hm);
      [intros y Hy; apply Hf; by right|].
    exists (v :: vs). split; [by constructor|].
    change (mapM f (x :: xs))
      with (exec_bind (fun y => exec_bind (fun k => exec_ret (y :: k)) (mapM f xs))
                      (f x)).
    rewrite (exec_eta (f x)), Hv, exec_bind_Some, Hm, exec_bind_Some.
    cbn [value trace fst snd exec_ret]. by rewrite app_nil_r.
Qed.
End ExecFacts.

(** * Facts about the evaluator *)

Section EvaluatorFacts.
Context `{jsonnet.Engine} `{domain.Types} `{!lint.Json}.
Import lint.

Lemma fmt_Errorf_nonempty text err : fmt_Errorf text err <> [].
Proof. unfold fmt_Errorf. by destruct text. Qed.

(** Evaluate, case by case: what it returns and which invocation it
    makes. *)
Lemma Evaluate_unfold tla node :
  Evaluate tla node =
  match Marshal (ensureConfig tla) with
  | Err err =>
      (Some (Err (fmt_Errorf (str "marshal a top level argument as JSON") err)), [])
  | Ok tlaB =>
      (Some match jsonnet.Evaluate tlaB node with
            | Err err => Err (fmt_Errorf (str "evaluate a lint file as Jsonnet") err)
            | Ok result => Ok result
            end,
       [(tlaB, node)])
  end.
Proof.
  unfold Evaluate. destruct (Marshal (ensureConfig tla)); [|done].
  unfold mbind, exec_mbind, invoke. rewrite exec_bind_Some.
  by destruct (jsonnet.Evaluate a node).
Qed.

Lemma Evaluate_total tla node : is_Some (value (Evaluate tla node)).
Proof. rewrite Evaluate_unfold. by destruct (Marshal (ensureConfig tla)). Qed.

(** An error that Evaluate returns has a text. *)
Lemma Evaluate_error tla node e :
  value (Evaluate tla node) = Some (Err e) -> e <> [].
Proof.
  rewrite Evaluate_unfold. destruct (Marshal (ensureConfig tla)) as [tlaB|err].
  - simpl. destruct (jsonnet.Evaluate tlaB node); intros; simplify_eq.
    apply fmt_Errorf_nonempty.
  - simpl. intros; simplify_eq. apply fmt_Errorf_nonempty.
Qed.

Lemma evaluated_unfold tla lintFile r :
  value (Evaluate (argumentOf tla lintFile) (domain.Node_ lintFile)) = Some r ->
  evaluated tla lintFile =
  (Some (Some (resultOf lintFile r)),
   trace (Evaluate (argumentOf tla lintFile) (domain.Node_ lintFile))).
Proof.
  intros Hr. unfold evaluated, mbind, exec_mbind.
  rewrite (exec_eta (Evaluate _ _)), Hr, exec_bind_Some. simpl.
  by rewrite app_nil_r.
Qed.

Lemma evaluated_total tla lintFile : is_Some (value (evaluated tla lintFile)).
Proof.
  destruct (Evaluate_total (argumentOf tla lintFile) (domain.Node_ lintFile)) as [r Hr].
  by rewrite (evaluated_unfold _ _ r Hr).
Qed.

(** Evaluates returns, cell by cell, what each turn of its loop computes
    from its own rule alone. *)
Lemma Evaluates_spec tla lintFiles :
  exists results,
    Forall2 (fun lintFile result => value (evaluated tla lintFile) = Some result)
            lintFiles results
    /\ Evaluates tla lintFiles
       = (Some results, concat (map (fun lintFile => trace (evaluated tla lintFile)) lintFiles)).
Proof.
  apply make_and_fill_spec. intros lintFile _. apply evaluated_total.
Qed.

Lemma Evaluates_singleton tla lintFile :
  Evaluates tla [lintFile]
  = ((fun result => [result]) <$> value (evaluated tla lintFile),
     trace (evaluated tla lintFile)).
Proof.
  destruct (Evaluates_spec tla [lintFile]) as (results & HF & ->).
  apply Forall2_cons_inv_l in HF as (result & rest & Hr & ->%Forall2_nil_inv_l & ->).
  rewrite Hr. simpl. by rewrite app_nil_r.
Qed.
End EvaluatorFacts.

(** * Facts about the controller *)

Section ControllerFacts.
Context `{jsonnet.Engine} `{controller.Types} `{!controller.Collaborators}.
Import controller.

(** evaluateNode, case by case. *)
Lemma evaluateNode_unfold data ja :
  evaluateNode data ja =
  match Marshal (argumentOf data ja) with
  | Err err =>
      (Some (Some {| erKey := Key ja;
                     erResult := [];
                     erError := fmt_Errorf (str "marshal a top level argument as JSON") err |}),
       [])
  | Ok tlaB =>
      (Some (Some match jsonnet.Evaluate tlaB (Node_ ja) with
                  | Err err => {| erKey := Key ja; erResult := []; erError := err |}
                  | Ok result => {| erKey := Key ja; erResult := result; erError := [] |}
                  end),
       [(tlaB, Node_ ja)])
  end.
Proof.
  unfold evaluateNode. destruct (Marshal (argumentOf data ja)) as [tlaB|err]; [|done].
  unfold mbind, exec_mbind, invoke. rewrite exec_bind_Some.
  by destruct (jsonnet.Evaluate tlaB (Node_ ja)).
Qed.

Lemma evaluateNode_total data ja :
  exists er, value (evaluateNode data ja) = Some (Some er).
Proof.
  rewrite evaluateNode_unfold.
  destruct (Marshal (argumentOf data ja)); eauto.
Qed.

Lemma evaluate_spec data jsonnetAsts :
  exists results,
    Forall2 (fun ja result => value (evaluateNode data ja) = Some result)
            jsonnetAsts results
    /\ evaluate data jsonnetAsts
       = (Some results, concat (map (fun ja => trace (evaluateNode data ja)) jsonnetAsts)).
Proof.
  apply make_and_fill_spec. intros ja _.
  destruct (evaluateNode_total data ja) as [er ->]. done.
Qed.

Lemma Forall2_Some_fmap {A B} (g : A -> B) xs vs :
  Forall2 (fun x v => Some (g x) = Some v) xs vs -> vs = g <$> xs.
Proof. induction 1; simplify_eq/=; by f_equal. Qed.

(** lint returns the error of parseDataFile, or else one result for each
    rule, made from the evaluation of that rule alone. *)
Lemma lint_spec dataFile jsonnetAsts :
  match parseDataFile dataFile with
  | Err err => lint dataFile jsonnetAsts = (Some (Err err), [])
  | Ok data =>
      exists results,
        Forall2 (fun ja result => value (evaluateNode data ja) = Some result)
                jsonnetAsts results
        /\ lint dataFile jsonnetAsts
           = (Some (Ok (parseResult <$> results)),
              concat (map (fun ja => trace (evaluateNode data ja)) jsonnetAsts))
  end.
Proof.
  unfold lint. destruct (parseDataFile dataFile) as [data|err]; [|done].
  destruct (evaluate_spec data jsonnetAsts) as (results & HF & ->).
  exists results. split; [done|].
  destruct (make_and_fill_spec None (fun result => mret (parseResult result)) results)
    as (rs & HF' & Hfill); [by intros|].
  apply Forall2_Some_fmap in HF' as ->.
  unfold mbind, exec_mbind. rewrite exec_bind_Some, Hfill, exec_bind_Some.
  cbn [value trace fst snd]. f_equal.
  rewrite (concat_map_nil _ results) by done. simpl. by rewrite app_nil_r.
Qed.

Lemma lint_total dataFile jsonnetAsts :
  is_Some (value (lint dataFile jsonnetAsts)).
Proof.
  pose proof (lint_spec dataFile jsonnetAsts) as Hl.
  destruct (parseDataFile dataFile); [destruct Hl as (? & _ & ->)|rewrite Hl]; done.
Qed.

(** The loop of lintTarget writes, for each of its data files, what lint
    returns for that file, and leaves every other key as it was. *)
Lemma lintTarget_from_spec (dataFiles : list gostring) (jsonnetAsts : list Node)
    (results : gmap gostring FileResult) :
  exists results',
    value (lintTarget_from dataFiles jsonnetAsts results) = Some results'
    /\ forall dataFile,
         results' !! dataFile =
         if decide (dataFile ∈ dataFiles)
         then fileResultOf <$> value (lint dataFile jsonnetAsts)
         else results !! dataFile.
Proof.
  revert results. induction dataFiles as [|d rest IH]; intros results.
  - exists results. split; [done|]. intros dataFile.
    rewrite decide_False; [done | apply not_elem_of_nil].
  - destruct (lint_total d jsonnetAsts) as [r Hr].
    destruct (IH (<[d := fileResultOf r]> results)) as (results' & Hv & Hlook).
    exists results'. split.
    + cbn [lintTarget_from]. unfold mbind, exec_mbind.
      rewrite (exec_eta (lint d jsonnetAsts)), Hr, exec_bind_Some. done.
    + intros dataFile. rewrite Hlook.
      destruct (decide (dataFile = d)) as [->|Hne].
      * rewrite (decide_True (P := d ∈ d :: rest)) by left.
        case_decide; [done|]. by rewrite lookup_insert_eq, Hr.
      * rewrite lookup_insert_ne by done.
        destruct (decide (dataFile ∈ rest)) as [Hin|Hnin].
        -- by rewrite decide_True by (by right).
        -- rewrite decide_False; [done|].
           rewrite elem_of_cons. by intros [?|?].
Qed.

Lemma lintTarget_spec (target : Target) (jsonnetAsts : list Node)
    (results : gmap gostring FileResult) :
  readJsonnets (LintFiles target) = Ok jsonnetAsts ->
  exists results',
    value (lintTarget target results) = Some (results', None)
    /\ forall dataFile,
         results' !! dataFile =
         if decide (dataFile ∈ DataFiles target)
         then fileResultOf <$> value (lint dataFile jsonnetAsts)
         else results !! dataFile.
Proof.
  intros Hread.
  destruct (lintTarget_from_spec (DataFiles target) jsonnetAsts results)
    as (results' & Hv & Hlook).
  exists results'. split; [|done].
  unfold lintTarget. rewrite Hread. unfold mbind, exec_mbind.
  rewrite (exec_eta (lintTarget_from _ _ _)), Hv, exec_bind_Some. done.
Qed.

(** getResults, when the rules of every target can be read: a key that no
    target has among its data files is left as it was, and a data file
    has the FileResult of the last target that lists it. *)
Lemma getResults_from_spec (targets : list Target) (results : gmap gostring FileResult) :
  Forall (fun t => exists asts, readJsonnets (LintFiles t) = Ok asts) targets ->
  exists results',
    value (getResults_from targets results) = Some (Ok results')
    /\ (forall dataFile,
          (forall t, t ∈ targets -> dataFile ∉ DataFiles t) ->
          results' !! dataFile = results !! dataFile)
    /\ (forall before t after dataFile asts,
          targets = before ++ t :: after ->
          dataFile ∈ DataFiles t ->
          (forall t', t' ∈ after -> dataFile ∉ DataFiles t') ->
          readJsonnets (LintFiles t) = Ok asts ->
          results' !! dataFile = fileResultOf <$> value (lint dataFile asts)).
Proof.
  revert results. induction targets as [|t0 rest IH]; intros results HF.
  - exists results. split; [done|]. split; [done|].
    intros before t after ? ? E. by destruct before.
  - apply Forall_cons in HF as [[asts0 Hread0] HF].
    destruct (lintTarget_spec t0 asts0 results Hread0) as (results1 & Hv1 & Hlook1).
    destruct (IH results1 HF) as (results' & Hv' & Hkeep & Hlast).
    exists results'. split; [|split].
    + cbn [getResults_from]. unfold mbind, exec_mbind.
      rewrite (exec_eta (lintTarget t0 results)), Hv1, exec_bind_Some. done.
    + intros dataFile Hnone. rewrite Hkeep, Hlook1.
      * rewrite decide_False; [done|]. apply Hnone. by left.
      * intros t Ht. apply Hnone. by right.
    + intros before t after dataFile asts E Hin Hafter Hread.
      destruct before as [|t1 before]; simplify_eq/=.
      * rewrite Hkeep by done. rewrite Hlook1. rewrite decide_True by done.
        congruence.
      * by apply (Hlast before t after).
Qed.

(** getResults gives up at the first target whose rules cannot be read, and
    returns the error of readJsonnets. *)
Lemma getResults_from_read_failure (before : list Target) (t : Target)
    (after : list Target) (results : gmap gostring FileResult) (e : gostring) :
  Forall (fun t => exists asts, readJsonnets (LintFiles t) = Ok asts) before ->
  readJsonnets (LintFiles t) = Err e ->
  value (getResults_from (before ++ t :: after) results) = Some (Err e).
Proof.
  revert results. induction before as [|t0 rest IH]; intros results HF Hread.
  - cbn [app getResults_from]. unfold lintTarget. by rewrite Hread.
  - apply Forall_cons in HF as [[asts0 Hread0] HF].
    destruct (lintTarget_spec t0 asts0 results Hread0) as (results1 & Hv1 & _).
    change ((t0 :: rest) ++ t :: after) with (t0 :: (rest ++ t :: after)).
    cbn [getResults_from]. unfold mbind, exec_mbind.
    rewrite (exec_eta (lintTarget t0 results)), Hv1, exec_bind_Some.
    cbn [value fst]. by apply IH.
Qed.

(** A data file that some target lists has a last target listing it. *)
Lemma last_target (targets : list Target) (dataFile : gostring) :
  Exists (fun t => dataFile ∈ DataFiles t) targets ->
  exists before t after,
    targets = before ++ t :: after
    /\ dataFile ∈ DataFiles t
    /\ (forall t', t' ∈ after -> dataFile ∉ DataFiles t').
Proof.
  induction targets as [|t0 rest IH]; intros Hex; [by apply Exists_nil in Hex|].
  destruct (decide (Exists (fun t => dataFile ∈ DataFiles t) rest)) as [Hrest|Hno].
  - destruct (IH Hrest) as (before & t & after & -> & Hin & Hafter).
    by exists (t0 :: before), t, after.
  - apply Exists_cons in Hex as [Hin|Hrest]; [|done].
    exists [], t0, rest. split; [done|]. split; [done|].
    intros t' Ht' Hin'. apply Hno, Exists_exists. eauto.
Qed.

Lemma getErrorLevel_empty : getErrorLevel [] = (errlevel_Error, None).
Proof. done. Qed.

Lemma getErrorLevel_invalid errorLevel ll e :
  errorLevel <> [] -> errlevel_New errorLevel = (ll, Some e) ->
  getErrorLevel errorLevel = (ll, Some e).
Proof.
  intros Hne Hnew. unfold getErrorLevel.
  rewrite bool_decide_eq_false_2 by done. by rewrite Hnew.
Qed.
End ControllerFacts.

(** * Properties of the evaluation pipeline *)

Section PipelineClaims.
Context `{jsonnet.Engine} `{domain.Types} `{!lint.Json}
        `{controller.Types} `{!controller.Collaborators}.



(** C6: when the error level of the run is not empty and errlevel.New
    rejects it, Lint returns an error and has invoked the engine not
    once; the empty error level is no failure but the level
    errlevel.Error, and that is the threshold Output is given. *)
Theorem Lint_rejects_undefined_level (param : controller.ParamLint) :
  (controller.ErrorLevel param <> [] ->
   (exists ll e, controller.errlevel_New (controller.ErrorLevel param) = (ll, Some e)) ->
   exists err, controller.Lint param = (Some (Some err), []))
  /\ controller.getErrorLevel [] = (controller.errlevel_Error, None)
  /\ (forall cfg modulesList modMap targets results,
        controller.ErrorLevel param = [] ->
        controller.findAndReadConfig (controller.ConfigFilePath param) = Ok cfg ->
        controller.ListModules cfg = Ok (modulesList, modMap) ->
        controller.installModules
          {| controller.BaseDir := controller.RootDir param |} modMap = None ->
        controller.findFiles cfg modulesList (controller.RootDir param) = Ok targets ->
        value (controller.getResults
                 (if (0 <? length (controller.FilePaths param))%nat
                  then controller.filterTargets targets (controller.FilePaths param)
                  else targets)) = Some (Ok results) ->
        value (controller.Lint param)
        = Some (controller.Output cfg controller.errlevel_Error results
                  (controller.Outputs param) (controller.OutputSuccess param))).
Proof.
  split; [|split].
  - intros Hne (ll & e & Hnew). unfold controller.Lint.
    rewrite (getErrorLevel_invalid _ ll e Hne Hnew).
    repeat case_match; eauto.
  - apply getErrorLevel_empty.
  - intros cfg modulesList modMap targets results Hlvl Hcfg Hmods Hinst Hfiles Hres.
    unfold controller.Lint.
    rewrite Hcfg, Hmods, Hinst, Hfiles, Hlvl, getErrorLevel_empty.
    unfold mbind, exec_mbind.
    rewrite (exec_eta (controller.getResults _)), Hres, exec_bind_Some. done.
Qed.

(** C10: Evaluates does not panic and returns one non-nil result for each
    rule node, in the order of the nodes; the result at the index of a
    node carries the key of that node, and either the error that Evaluate
    returned for it, whose text is not empty, or the output that Evaluate
    returned. The same holds of the controller's evaluate, whose results
    carry the error of the marshalling or of the engine, or the output of
    the engine. *)
Theorem Evaluates_one_result_per_rule
    (tla : domain.TopLevelArgment) (lintFiles : list domain.Node)
    (data : option controller.Data) (jsonnetAsts : list controller.Node) :
  (exists results,
      value (lint.Evaluates tla lintFiles) = Some results
      /\ length results = length lintFiles
      /\ forall i n, lintFiles !! i = Some n ->
           exists r,
             results !! i = Some (Some r)
             /\ domain.LintFile r = domain.Key n
             /\ ((exists e,
                    value (lint.Evaluate (lint.argumentOf tla n) (domain.Node_ n))
                    = Some (Err e)
                    /\ domain.Error r = e /\ e <> [])
                 \/ (exists s,
                       value (lint.Evaluate (lint.argumentOf tla n) (domain.Node_ n))
                       = Some (Ok s)
                       /\ domain.RawOutput r = s)))
  /\ (exists results,
        value (controller.evaluate data jsonnetAsts) = Some results
        /\ length results = length jsonnetAsts
        /\ forall i ja, jsonnetAsts !! i = Some ja ->
             exists r,
               results !! i = Some (Some r)
               /\ controller.erKey r = controller.Key ja
               /\ ((controller.erResult r = []
                    /\ exists e,
                         (controller.Marshal (controller.argumentOf data ja) = Err e
                          /\ controller.erError r
                             = fmt_Errorf (str "marshal a top level argument as JSON") e)
                         \/ (exists tlaB,
                               controller.Marshal (controller.argumentOf data ja) = Ok tlaB
                               /\ jsonnet.Evaluate tlaB (controller.Node_ ja) = Err e
                               /\ controller.erError r = e))
                   \/ (exists tlaB s,
                         controller.Marshal (controller.argumentOf data ja) = Ok tlaB
                         /\ jsonnet.Evaluate tlaB (controller.Node_ ja) = Ok s
                         /\ controller.erResult r = s
                         /\ controller.erError r = []))).
Proof.
  split.
  - destruct (Evaluates_spec tla lintFiles) as (results & HF & Heq).
    exists results. split; [by rewrite Heq|].
    split; [symmetry; by eapply Forall2_length|].
    intros i n Hn.
    destruct (Forall2_lookup_l _ _ _ _ _ HF Hn) as (r0 & Hr0 & Hval).
    destruct (Evaluate_total (lint.argumentOf tla n) (domain.Node_ n)) as [o Ho].
    rewrite (evaluated_unfold _ _ o Ho) in Hval. simplify_eq/=.
    exists (lint.resultOf n o). split; [done|].
    destruct o as [s|e]; simpl.
    + split; [by destruct (lint.parseResult s) as [[? ?] ?]|].
      right. exists s. split; [done|].
      by destruct (lint.parseResult s) as [[? ?] ?].
    + split; [done|]. left. exists e. split; [done|]. split; [done|].
      by eapply Evaluate_error.
  - destruct (evaluate_spec data jsonnetAsts) as (results & HF & Heq).
    exists results. split; [by rewrite Heq|].
    split; [symmetry; by eapply Forall2_length|].
    intros i ja Hja.
    destruct (Forall2_lookup_l _ _ _ _ _ HF Hja) as (r0 & Hr0 & Hval).
    rewrite evaluateNode_unfold in Hval.
    destruct (controller.Marshal (controller.argumentOf data ja)) as [tlaB|e] eqn:Em;
      simplify_eq/=.
    + eexists. split; [done|].
      destruct (jsonnet.Evaluate tlaB (controller.Node_ ja)) as [s|e] eqn:Ee; simpl.
      * split; [done|]. right. by exists tlaB, s.
      * split; [done|]. left. split; [done|]. exists e. right. by exists tlaB.
    + eexists. split; [done|]. simpl. split; [done|].
      left. split; [done|]. exists e. by left.
Qed.

(** C5: when the output [s] that Evaluate returned for a rule decodes into
    an untyped value [v] and does not decode into a list of findings, the
    result of that rule records the error of the second decoding and
    keeps [v] as its Interface and [s] as its RawOutput. *)
Theorem shape_error_keeps_opaque_value
    (tla : domain.TopLevelArgment) (lintFiles : list domain.Node)
    (i : nat) (n : domain.Node) (s : gostring) (v : option any) (e : gostring) :
  lintFiles !! i = Some n ->
  value (lint.Evaluate (lint.argumentOf tla n) (domain.Node_ n)) = Some (Ok s) ->
  lint.Unmarshal_any s = Ok v ->
  lint.Unmarshal_results s = Err e ->
  lint.parseResult s
  = (None, v, Some (fmt_Errorf (str "unmarshal the result as JSON") e))
  /\ exists results r,
       value (lint.Evaluates tla lintFiles) = Some results
       /\ results !! i = Some (Some r)
       /\ domain.LintFile r = domain.Key n
       /\ domain.Error r = fmt_Errorf (str "unmarshal the result as JSON") e
       /\ domain.Error r <> []
       /\ domain.Interface r = v
       /\ domain.RawOutput r = s.
Proof.
  intros Hn Hs Hany Hshape.
  assert (Hp : lint.parseResult s
               = (None, v, Some (fmt_Errorf (str "unmarshal the result as JSON") e))).
  { unfold lint.parseResult. by rewrite Hany, Hshape. }
  split; [done|].
  destruct (Evaluates_spec tla lintFiles) as (results & HF & Heq).
  destruct (Forall2_lookup_l _ _ _ _ _ HF Hn) as (r0 & Hr0 & Hval).
  rewrite (evaluated_unfold _ _ _ Hs) in Hval. simplify_eq/=.
  exists results, (lint.resultOf n (Ok s)). split; [by rewrite Heq|].
  split; [done|]. simpl. rewrite Hp. simpl.
  repeat split; (done || apply fmt_Errorf_nonempty).
Qed.

(** C4 (the driver that calls Evaluates is modelled from the spec): in a
    target that has a combine rule, with data files decoded to [values],
    every pair of a data file and a rule is evaluated, in the order of the
    data files and then of the rules, by one call of Evaluate whose
    argument, for a combine rule, has combinedData equal to the whole
    list [values] and, for any other rule, has the file's own value as
    data and no combinedData; the engine is invoked with the
    serialisation of exactly that argument. A node that Parse makes has
    its combine flag set exactly when the path of its file ends in
    "_combine.jsonnet". *)
Theorem combinedData_reaches_combine_rules
    (rules : list domain.Node) (values : list domain.Data) :
  existsb domain.Combine rules = true ->
  (forall lintFile n,
      lint.Parse lintFile = Ok n ->
      (domain.Combine n = true
       <-> exists stem, configLintFile.Path lintFile = stem ++ str "_combine.jsonnet"))
  /\ exists out,
       value (lint.evaluateTarget rules values) = Some out
       /\ length out = length values
       /\ trace (lint.evaluateTarget rules values)
          = concat (map (fun d =>
              concat (map (fun rule => trace (lint.evaluatePair (Some values) d rule))
                          rules)) values)
       /\ forall i d j rule,
            values !! i = Some d -> rules !! j = Some rule ->
            exists arg r,
              (if domain.Combine rule
               then domain.tlaCombinedData arg = Some values
               else domain.tlaData arg = Some d /\ domain.tlaCombinedData arg = None)
              /\ domain.tlaConfig arg = domain.Config rule
              /\ value (lint.Evaluate arg (domain.Node_ rule)) = Some r
              /\ trace (lint.evaluatePair (Some values) d rule)
                 = match lint.Marshal (lint.ensureConfig arg) with
                   | Ok tlaB => [(tlaB, domain.Node_ rule)]
                   | Err _ => []
                   end
              /\ (out !! i) ≫= (fun row => row !! j)
                 = Some [Some (lint.resultOf rule r)].
Proof.
  intros Hc. split.
  - intros lintFile n Hparse. unfold lint.Parse in Hparse.
    destruct (jsonnet.ReadToNode (configLintFile.Path lintFile)); simplify_eq/=.
    apply HasSuffix_spec.
  - unfold lint.evaluateTarget, lint.combinedDataOf. rewrite Hc.
    assert (Hpair : forall d rule,
              is_Some (value (lint.evaluatePair (Some values) d rule))).
    { intros d rule. unfold lint.evaluatePair. rewrite Evaluates_singleton.
      destruct (evaluated_total (lint.argumentFor (Some values) d rule) rule)
        as [r Hr]. simpl. rewrite Hr. by eexists. }
    assert (Hrow : forall d,
              exists row,
                Forall2 (fun rule v => value (lint.evaluatePair (Some values) d rule) = Some v)
                        rules row
                /\ mapM (lint.evaluatePair (Some values) d) rules
                   = (Some row,
                      concat (map (fun rule => trace (lint.evaluatePair (Some values) d rule))
                                  rules))).
    { intros d. apply mapM_exec_spec. intros rule _. apply Hpair. }
    destruct (mapM_exec_spec
                (fun d => mapM (lint.evaluatePair (Some values) d) rules) values)
      as (out & HF & Heq).
    { intros d _. destruct (Hrow d) as (row & _ & ->). by eexists. }
    exists out. split; [by rewrite Heq|].
    split; [symmetry; by eapply Forall2_length|]. split.
    + rewrite Heq. cbn [trace snd]. f_equal. apply map_ext. intros d.
      by destruct (Hrow d) as (row & _ & ->).
    + intros i d j rule Hd Hrule.
      destruct (Forall2_lookup_l _ _ _ _ _ HF Hd) as (row & Hrowi & Hval).
      destruct (Hrow d) as (row' & HFrow & Hroweq).
      rewrite Hroweq in Hval. simplify_eq/=.
      destruct (Forall2_lookup_l _ _ _ _ _ HFrow Hrule) as (cell & Hcell & Hcellv).
      set (arg := lint.argumentOf (lint.argumentFor (Some values) d rule) rule).
      destruct (Evaluate_total arg (domain.Node_ rule)) as [r Hr].
      exists arg, r. split; [|split; [|split; [|split]]].
      * unfold arg, lint.argumentFor. by destruct (domain.Combine rule).
      * done.
      * done.
      * unfold lint.evaluatePair. rewrite Evaluates_singleton. cbn [trace snd].
        rewrite (evaluated_unfold _ _ r Hr). cbn [snd].
        fold arg. rewrite Evaluate_unfold.
        by destruct (lint.Marshal (lint.ensureConfig arg)).
      * rewrite Hrowi. simpl. rewrite Hcell. f_equal.
        unfold lint.evaluatePair in Hcellv.
        rewrite Evaluates_singleton, (evaluated_unfold _ _ r Hr) in Hcellv.
        by simplify_eq/=.
Qed.
End PipelineClaims.

(** * The properties at work in the small world *)

Section Witnesses.
Import demo.

Lemma demo_targets_readable :
  Forall (fun t => exists asts,
            controller.readJsonnets (controller.LintFiles t) = Ok asts) targets.
Proof. repeat (constructor; [eexists; by vm_compute|]). constructor. Qed.



(** The error level "critical" is none of debug, info, warn, error: Lint
    fails and the engine is never invoked. *)
Lemma Lint_rejects_undefined_level_witness :
  controller.ErrorLevel (param (str "critical")) <> []
  /\ (exists ll e, controller.errlevel_New (controller.ErrorLevel (param (str "critical")))
                   = (ll, Some e))
  /\ (exists err, controller.Lint (param (str "critical")) = (Some (Some err), []))
  /\ value (controller.Lint (param [])) = Some None
  /\ trace (controller.Lint (param [])) <> [].
Proof.
  assert (Hne : controller.ErrorLevel (param (str "critical")) <> []) by done.
  assert (Hnew : exists ll e,
             controller.errlevel_New (controller.ErrorLevel (param (str "critical")))
             = (ll, Some e)) by (by eexists _, _).
  split; [done|]. split; [done|]. split.
  - exact (proj1 (Lint_rejects_undefined_level (param (str "critical"))) Hne Hnew).
  - split; [by vm_compute|]. vm_compute. discriminate.
Defined.

(** "object.jsonnet" prints an object: the untyped decoding succeeds, the
    decoding into findings fails. *)
Lemma shape_error_keeps_opaque_value_witness :
  exists results r,
    value (lint.Evaluates (tla (str "1"))
             [rule (str "ok.jsonnet"); rule (str "object.jsonnet")]) = Some results
    /\ results !! 1%nat = Some (Some r)
    /\ domain.Error r
       = str "unmarshal the result as JSON: json: cannot unmarshal object into Go value"
    /\ domain.Interface r = Some (Dyn unit tt)
    /\ domain.RawOutput r = str "{}".
Proof.
  destruct (shape_error_keeps_opaque_value (tla (str "1"))
              [rule (str "ok.jsonnet"); rule (str "object.jsonnet")]
              1%nat (rule (str "object.jsonnet")) (str "{}") (Some (Dyn unit tt))
              (str "json: cannot unmarshal object into Go value"))
    as (_ & results & r & Hv & Hr & _ & He & _ & Hi & Ho);
    [done | by vm_compute | by vm_compute | by vm_compute |].
  by exists results, r.
Defined.

(** The spec's example: data files 1 and 2, a plain rule and a combine
    rule. *)
Lemma combinedData_reaches_combine_rules_witness :
  existsb domain.Combine rules = true
  /\ trace (lint.evaluateTarget rules values)
     = [ (str "data=1 combined_data=null", str "ok.jsonnet");
         (str "data=null combined_data=[1,2]", str "x_combine.jsonnet");
         (str "data=2 combined_data=null", str "ok.jsonnet");
         (str "data=null combined_data=[1,2]", str "x_combine.jsonnet") ].
Proof.
  split; [by vm_compute|].
  destruct (combinedData_reaches_combine_rules rules values eq_refl)
    as (_ & out & _ & _ & Ht & _).
  rewrite Ht. by vm_compute.
Defined.
End Witnesses.

(** * More facts about the string functions *)

Section MoreStringFacts.
Import strings.
Implicit Types (s t a b ws : gostring) (c sep : rune) (f : rune -> bool).

Lemma Split_no_sep s sep piece : piece ∈ Split s sep -> sep ∉ piece.
Proof.
  revert piece. induction s as [|c s IH]; intros piece Hin.
  - apply list_elem_of_singleton in Hin as ->. apply not_elem_of_nil.
  - simpl in Hin. destruct (Z.eqb_spec c sep) as [->|Hne].
    + apply elem_of_cons in Hin as [->|Hin]; [apply not_elem_of_nil | by apply IH].
    + pose proof (Split_nonempty s sep).
      destruct (Split s sep) as [|p ps]; [done|].
      apply elem_of_cons in Hin as [->|Hin].
      * apply not_elem_of_cons. split; [done|]. apply IH. by left.
      * apply IH. by right.
Qed.

Lemma Split_length s sep :
  length (Split s sep) = S (length (filter (fun c => c = sep) s)).
Proof.
  induction s as [|c s IH]; [done|]. simpl.
  destruct (Z.eqb_spec c sep) as [->|Hne].
  - rewrite filter_cons_True by done. simpl. by rewrite IH.
  - rewrite filter_cons_False by done.
    pose proof (Split_nonempty s sep).
    destruct (Split s sep); [done|]. by rewrite <- IH.
Qed.

Lemma Cut_found s sep b a :
  Cut s sep = (b, a, true) -> s = b ++ sep :: a /\ sep ∉ b.
Proof.
  revert b. induction s as [|c s IH]; intros b Hc; [done|].
  simpl in Hc. destruct (Z.eqb_spec c sep) as [->|Hne].
  - simplify_eq. split; [done | apply not_elem_of_nil].
  - destruct (Cut s sep) as [[b' a'] found]. simplify_eq.
    destruct (IH b' eq_refl) as [-> Hb]. split; [done|].
    by apply not_elem_of_cons.
Qed.

Lemma Cut_not_found s sep b a :
  Cut s sep = (b, a, false) -> b = s /\ a = [] /\ sep ∉ s.
Proof.
  revert b. induction s as [|c s IH]; intros b Hc.
  - simpl in Hc. simplify_eq. split; [done|]. split; [done | apply not_elem_of_nil].
  - simpl in Hc. destruct (Z.eqb_spec c sep) as [->|Hne]; [done|].
    destruct (Cut s sep) as [[b' a'] found]. simplify_eq.
    destruct (IH b' eq_refl) as (-> & -> & Hs). split; [done|]. split; [done|].
    by apply not_elem_of_cons.
Qed.

(** Two texts cut by a separator at the same place are equal part by
    part. *)
Lemma app_sep_inj s1 s2 t1 t2 sep :
  sep ∉ s1 -> sep ∉ s2 -> s1 ++ sep :: t1 = s2 ++ sep :: t2 -> s1 = s2 /\ t1 = t2.
Proof.
  intros H1 H2 E. apply (f_equal (fun s => Cut s sep)) in E.
  rewrite !Cut_app in E by done. by simplify_eq.
Qed.

Lemma TrimLeftFunc_pad f ws s :
  Forall (fun c => f c = true) ws -> TrimLeftFunc (ws ++ s) f = TrimLeftFunc s f.
Proof. induction 1 as [|c ws Hc _ IH]; [done|]. simpl. by rewrite Hc. Qed.

Lemma TrimRightFunc_all f ws :
  Forall (fun c => f c = true) ws -> TrimRightFunc ws f = [].
Proof.
  induction 1 as [|c ws Hc _ IH]; [done|].
  by rewrite TrimRightFunc_cons, IH, Hc.
Qed.

Lemma TrimRightFunc_pad f ws s :
  Forall (fun c => f c = true) ws -> TrimRightFunc (s ++ ws) f = TrimRightFunc s f.
Proof.
  intros Hws. induction s as [|c s IH].
  - by rewrite TrimRightFunc_all.
  - change ((c :: s) ++ ws) with (c :: (s ++ ws)).
    by rewrite !TrimRightFunc_cons, IH.
Qed.

Lemma TrimFunc_pad f ws ws' s :
  Forall (fun c => f c = true) ws -> Forall (fun c => f c = true) ws' ->
  TrimFunc (ws ++ s ++ ws') f = TrimFunc s f.
Proof.
  intros Hws Hws'. unfold TrimFunc.
  rewrite TrimLeftFunc_pad by done.
  rewrite <- Trim_left_right_comm, TrimRightFunc_pad by done.
  apply Trim_left_right_comm.
Qed.

Lemma TrimPrefix_changes s c :
  TrimPrefix s [c] <> s <-> HasPrefix s [c] = true.
Proof.
  unfold TrimPrefix. destruct (HasPrefix s [c]) eqn:Hp; [|by split].
  split; [done|]. intros _. destruct s as [|d s]; [done|].
  simpl. apply cons_ne_self.
Qed.

Lemma Join_cons_cons a b (l : list gostring) (sp : gostring) :
  Join (a :: b :: l) sp = a ++ sp ++ Join (b :: l) sp.
Proof. done. Qed.

Lemma Join_app (xs ys : list gostring) (sp : gostring) :
  xs <> [] -> ys <> [] -> Join (xs ++ ys) sp = Join xs sp ++ sp ++ Join ys sp.
Proof.
  intros Hx Hy. induction xs as [|x xs IH]; [done|].
  destruct xs as [|x' xs].
  - destruct ys; [done|]. done.
  - change ((x :: x' :: xs) ++ ys) with (x :: x' :: (xs ++ ys)).
    rewrite !Join_cons_cons.
    change (x' :: xs ++ ys) with ((x' :: xs) ++ ys).
    rewrite IH by done. by rewrite <- !app_assoc.
Qed.
End MoreStringFacts.

(** * More properties of module.go *)

Section ParserExtras.
Import strings config.

(** What a successful parse tells about the line it was made from. *)
Lemma parseTrimmed_sound excluded x m :
  parseTrimmed excluded x = Ok m ->
  exists owner repo path ref tag,
    m = {| ID := x;
           SlashPath := str "github.com/" ++ owner ++ str "/" ++ repo ++ str "/"
                        ++ ref ++ str "/" ++ path;
           Archive := Some {| Type_ := str "github";
                              Host := str "github.com";
                              RepoOwner := owner;
                              RepoName := repo;
                              Ref := ref;
                              Tag := tag |};
           Config := None;
           Excluded := excluded |}
    /\ (rune_of "/" ∉ owner) /\ (rune_of "/" ∉ repo)
    /\ (rune_of "@" ∉ path) /\ (rune_of ":" ∉ ref)
    /\ validateRef ref = None
    /\ (x = str "github.com/" ++ owner ++ str "/" ++ repo ++ str "/" ++ path
            ++ str "@" ++ ref ++ str ":" ++ tag
        \/ (tag = []
            /\ x = str "github.com/" ++ owner ++ str "/" ++ repo ++ str "/" ++ path
                   ++ str "@" ++ ref)).
Proof.
  intros Hm. unfold parseTrimmed in Hm.
  destruct (length (Split x (rune_of "/")) <? 4)%nat eqn:Hlen; [done|].
  destruct (bool_decide (at_ (Split x (rune_of "/")) 0 = str "github.com")) eqn:Hhost;
    [|done].
  apply bool_decide_eq_true in Hhost. cbn [negb] in Hm.
  destruct (Cut (Join (drop 3 (Split x (rune_of "/"))) (str "/")) (rune_of "@"))
    as [[path refAndTag] ok] eqn:Hcut1.
  destruct ok; [|done]. cbn [negb] in Hm.
  destruct (Cut refAndTag (rune_of ":")) as [[ref tag] found] eqn:Hcut2.
  destruct (validateRef ref) eqn:Hval; [done|].
  pose proof (Join_Split x (rune_of "/")) as Hx.
  assert (Hpieces : forall piece, piece ∈ Split x (rune_of "/") -> rune_of "/" ∉ piece)
    by (intros piece; apply Split_no_sep).
  destruct (Split x (rune_of "/")) as [|e0 [|e1 [|e2 [|e3 rest]]]] eqn:Hs;
    try done.
  unfold at_ in Hhost. cbn in Hhost. subst e0.
  cbn [drop] in Hcut1. change (str "/") with [rune_of "/"] in Hcut1.
  apply Cut_found in Hcut1 as [Hrest Hpath].
  rewrite !Join_cons_cons, Hrest in Hx.
  exists e1, e2, path, ref, tag. simplify_eq.
  split; [done|].
  split; [apply Hpieces; set_solver|].
  split; [apply Hpieces; set_solver|].
  split; [done|].
  destruct found.
  - apply Cut_found in Hcut2 as [-> Href]. split; [done|]. split; [done|].
    left. reflexivity.
  - apply Cut_not_found in Hcut2 as (-> & -> & Href). split; [done|]. split; [done|].
    right. split; reflexivity.
Qed.

(** The line that ParseModuleLine hands to the rest of the parser is
    trimmed. *)
Lemma ParseModuleLine_cases line :
  exists excluded x,
    ParseModuleLine line = parseTrimmed excluded x
    /\ TrimSpace x = x
    /\ excluded = HasPrefix (TrimSpace line) (str "!")
    /\ x = TrimSpace (TrimPrefix (TrimSpace line) (str "!")).
Proof.
  unfold ParseModuleLine.
  destruct (HasPrefix (TrimSpace line) (str "!")) eqn:Hp.
  - exists true, (TrimSpace (TrimPrefix (TrimSpace line) (str "!"))).
    rewrite bool_decide_eq_true_2 by (by apply (TrimPrefix_changes _ (rune_of "!"))).
    split; [done|]. split; [apply TrimFunc_idemp | done].
  - exists false, (TrimSpace line).
    rewrite bool_decide_eq_false_2.
    2:{ intros Hne. apply (TrimPrefix_changes _ (rune_of "!")) in Hne.
        change [rune_of "!"] with (str "!") in Hne. congruence. }
    split; [done|]. split; [apply TrimFunc_idemp|]. split; [done|].
    unfold TrimPrefix. rewrite Hp. symmetry. apply TrimFunc_idemp.
Qed.

Lemma parseTrimmed_errors excluded x e :
  parseTrimmed excluded x = Err e ->
  (e = str "line is invalid"
   /\ (length (filter (fun c => c = rune_of "/") x) < 3)%nat)
  \/ ((3 <= length (filter (fun c => c = rune_of "/") x))%nat
      /\ (e = str "module must start with 'github.com/'"
          \/ e = str "ref is required"
          \/ e = str "ref must be full commit hash")).
Proof.
  unfold parseTrimmed. rewrite Nat.ltb_antisym, Split_length.
  destruct (4 <=? S (length (filter (fun c => c = rune_of "/") x)))%nat eqn:Hlen;
    cbn [negb].
  - apply Nat.leb_le in Hlen. intros He. right. split; [lia|].
    unfold validateRef in He.
    repeat case_match; simplify_eq; auto.
  - apply Nat.leb_gt in Hlen. intros He. simplify_eq. left. split; [done | lia].
Qed.

Lemma parseTrimmed_few_slashes excluded x :
  (length (filter (fun c => c = rune_of "/") x) < 3)%nat ->
  parseTrimmed excluded x = Err (str "line is invalid").
Proof.
  intros Hlen. unfold parseTrimmed.
  assert (Hlt : (length (Split x (rune_of "/")) <? 4)%nat = true)
    by (apply Nat.ltb_lt; rewrite Split_length; lia).
  by rewrite Hlt.
Qed.

(** X1: ParseModuleLine fails with one of four errors and no other; the
    error is "line is invalid" exactly when the declaration, with the
    surrounding white space and the exclusion marker taken off, has fewer
    than three '/'. *)
Theorem ParseModuleLine_errors line :
  (forall e, ParseModuleLine line = Err e ->
     e ∈ [str "line is invalid"; str "module must start with 'github.com/'";
          str "ref is required"; str "ref must be full commit hash"])
  /\ (ParseModuleLine line = Err (str "line is invalid")
      <-> (length (filter (fun c => c = rune_of "/")
                     (TrimSpace (TrimPrefix (TrimSpace line) (str "!")))) < 3)%nat).
Proof.
  destruct (ParseModuleLine_cases line) as (excluded & x & Hp & _ & _ & Hx).
  rewrite Hp, <- Hx. clear Hp Hx. split.
  - intros e He. apply parseTrimmed_errors in He.
    rewrite !elem_of_cons. destruct He as [He|He]; [tauto|].
    destruct He as (_ & He). tauto.
  - split.
    + intros He. apply parseTrimmed_errors in He.
      destruct He as [He|He]; [tauto|].
      destruct He as (_ & [He|[He|He]]); discriminate.
    + apply parseTrimmed_few_slashes.
Qed.

(** X2: a reference that ParseModuleLine returns comes from a line of the
    documented shape: its archive has type "github" and host "github.com";
    owner and repository hold no '/', the path no '@', the ref no ':', and
    the ref is one that validateRef accepts; the slash path is
    "github.com/owner/repo/ref/path"; the id is
    "github.com/owner/repo/path@ref", followed by ":tag" when the line has
    a tag; the configuration is nil; and the excluded flag is set exactly
    when the trimmed line begins with '!'. *)
Theorem ParseModuleLine_sound line m :
  ParseModuleLine line = Ok m ->
  exists owner repo path ref tag,
    Archive m = Some {| Type_ := str "github";
                        Host := str "github.com";
                        RepoOwner := owner;
                        RepoName := repo;
                        Ref := ref;
                        Tag := tag |}
    /\ Config m = None
    /\ Excluded m = HasPrefix (TrimSpace line) (str "!")
    /\ SlashPath m = str "github.com/" ++ owner ++ str "/" ++ repo ++ str "/"
                     ++ ref ++ str "/" ++ path
    /\ (rune_of "/" ∉ owner) /\ (rune_of "/" ∉ repo)
    /\ (rune_of "@" ∉ path) /\ (rune_of ":" ∉ ref)
    /\ validateRef ref = None
    /\ (ID m = str "github.com/" ++ owner ++ str "/" ++ repo ++ str "/" ++ path
               ++ str "@" ++ ref ++ str ":" ++ tag
        \/ (tag = []
            /\ ID m = str "github.com/" ++ owner ++ str "/" ++ repo ++ str "/"
                      ++ path ++ str "@" ++ ref)).
Proof.
  destruct (ParseModuleLine_cases line) as (excluded & x & -> & _ & -> & _).
  intros Hm.
  destruct (parseTrimmed_sound _ _ _ Hm)
    as (owner & repo & path & ref & tag & -> & Ho & Hr & Hp & Hf & Hv & Hx).
  exists owner, repo, path, ref, tag. simpl. repeat split; done.
Qed.

Lemma ParseModuleLine_sound_witness :
  exists m owner repo path ref tag,
    ParseModuleLine sample.excluded_line = Ok m
    /\ Archive m = Some {| Type_ := str "github";
                           Host := str "github.com";
                           RepoOwner := owner;
                           RepoName := repo;
                           Ref := ref;
                           Tag := tag |}
    /\ Excluded m = true
    /\ SlashPath m = str "github.com/" ++ owner ++ str "/" ++ repo ++ str "/"
                     ++ ref ++ str "/" ++ path.
Proof.
  assert (Hm : exists m, ParseModuleLine sample.excluded_line = Ok m)
    by (eexists; by vm_compute).
  destruct Hm as [m Hm].
  destruct (ParseModuleLine_sound _ _ Hm)
    as (owner & repo & path & ref & tag & Ha & _ & He & Hs & _).
  exists m, owner, repo, path, ref, tag. by rewrite He.
Defined.

(** X3: parsing the id of a parsed reference gives the same reference, not
    excluded; parsing "!" followed by the id gives it excluded. *)
Theorem ParseModuleLine_ID_reparse line m :
  ParseModuleLine line = Ok m ->
  ParseModuleLine (ID m)
  = Ok {| ID := ID m; SlashPath := SlashPath m; Archive := Archive m;
          Config := Config m; Excluded := false |}
  /\ ParseModuleLine (str "!" ++ ID m)
     = Ok {| ID := ID m; SlashPath := SlashPath m; Archive := Archive m;
             Config := Config m; Excluded := true |}.
Proof.
  destruct (ParseModuleLine_cases line) as (excluded & x & -> & Hx & _ & _).
  intros Hm.
  assert (HID : ID m = x) by (by eapply parseTrimmed_ID).
  assert (Hstart : HasPrefix x (str "!") = false).
  { destruct (parseTrimmed_sound _ _ _ Hm)
      as (owner & repo & path & ref & tag & _ & _ & _ & _ & _ & _ & [->|[_ ->]]);
      reflexivity. }
  assert (Hfalse : parseTrimmed false x
                   = Ok {| ID := ID m; SlashPath := SlashPath m; Archive := Archive m;
                           Config := Config m; Excluded := false |}).
  { rewrite (parseTrimmed_excluded excluded x) in Hm.
    pose proof (parseTrimmed_excluded false x) as Hself.
    destruct (parseTrimmed false x) as [m0|]; simplify_eq/=. by f_equal. }
  subst x. split.
  - rewrite ParseModuleLine_unmarked; rewrite Hx; done.
  - rewrite ParseModuleLine_marked, Hx, (parseTrimmed_excluded true (ID m)), Hfalse.
    done.
Qed.

Lemma ParseModuleLine_ID_reparse_witness :
  exists m,
    ParseModuleLine sample.excluded_line = Ok m
    /\ ID m = sample.line
    /\ ParseModuleLine (ID m)
       = Ok {| ID := ID m; SlashPath := SlashPath m; Archive := Archive m;
               Config := Config m; Excluded := false |}.
Proof.
  assert (Hm : exists m, ParseModuleLine sample.excluded_line = Ok m /\ ID m = sample.line)
    by (eexists; split; by vm_compute).
  destruct Hm as (m & Hm & HID).
  exists m. split; [done|]. split; [done|].
  exact (proj1 (ParseModuleLine_ID_reparse _ _ Hm)).
Defined.

(** X4: white space around a declaration, and between the exclusion marker
    and the declaration, does not change what ParseModuleLine returns. *)
Theorem ParseModuleLine_ignores_white_space ws ws' line :
  Forall (fun c => unicode.IsSpace c = true) ws ->
  Forall (fun c => unicode.IsSpace c = true) ws' ->
  ParseModuleLine (ws ++ line ++ ws') = ParseModuleLine line
  /\ ParseModuleLine (str "!" ++ ws ++ line ++ ws') = ParseModuleLine (str "!" ++ line).
Proof.
  intros Hws Hws'.
  assert (Ht : TrimSpace (ws ++ line ++ ws') = TrimSpace line)
    by (by apply TrimFunc_pad).
  split.
  - unfold ParseModuleLine. by rewrite Ht.
  - by rewrite !ParseModuleLine_marked, Ht.
Qed.

Lemma ParseModuleLine_ignores_white_space_witness :
  ParseModuleLine (str "  " ++ sample.line ++ [9; 0x3000]) = ParseModuleLine sample.line
  /\ ParseModuleLine (str "!" ++ str "  " ++ sample.line ++ [9; 0x3000])
     = ParseModuleLine (str "!" ++ sample.line).
Proof.
  apply (ParseModuleLine_ignores_white_space (str "  ") [9; 0x3000] sample.line);
    by_compute.
Defined.

(** X5: validateRef accepts exactly the refs that hold 40 hexadecimal
    digits in a row, wherever in the ref; it rejects every ref shorter than
    40 characters, and its only error is "ref must be full commit hash". *)
Theorem validateRef_accepts_refs_holding_a_hash ref :
  (validateRef ref = None <-> exists a h b, ref = a ++ h ++ b /\ hex40 h)
  /\ ((length ref < 40)%nat -> validateRef ref <> None)
  /\ (validateRef ref <> None ->
      validateRef ref = Some (str "ref must be full commit hash")).
Proof.
  split; [apply validateRef_accepts|]. split.
  - intros Hlen. by rewrite validateRef_rejects_short.
  - unfold validateRef. by destruct (fullCommitHashPattern_MatchString ref).
Qed.

(** X6: ParseImport does not look at the exclusion marker: for a line that,
    once trimmed, does not itself begin with '!', "!" followed by the line
    is imported as the line is. *)
Theorem ParseImport_ignores_marker line :
  HasPrefix (TrimSpace line) (str "!") = false ->
  ParseImport (str "!" ++ line) = ParseImport line.
Proof.
  intros Hp. unfold ParseImport.
  rewrite ParseModuleLine_marked, (ParseModuleLine_unmarked line Hp).
  rewrite (parseTrimmed_excluded true).
  by destruct (parseTrimmed false (TrimSpace line)).
Qed.

Lemma ParseImport_ignores_marker_witness :
  HasPrefix (TrimSpace sample.line) (str "!") = false
  /\ ParseImport sample.excluded_line = ParseImport sample.line
  /\ exists m, ParseImport sample.line = Ok m.
Proof.
  split; [by vm_compute|]. split.
  - apply (ParseImport_ignores_marker sample.line). by vm_compute.
  - eexists. by vm_compute.
Defined.

(** X7: the String of an archive tells the archive: for two archives whose
    hosts, owners and repository names hold no '/' and whose refs are full
    commit hashes, equal Strings mean equal host, owner, name, ref and
    tag. *)
Theorem ModuleArchive_String_inj (a b : ModuleArchive) :
  (rune_of "/" ∉ Host a) -> (rune_of "/" ∉ Host b) ->
  (rune_of "/" ∉ RepoOwner a) -> (rune_of "/" ∉ RepoOwner b) ->
  (rune_of "/" ∉ RepoName a) -> (rune_of "/" ∉ RepoName b) ->
  hex40 (Ref a) -> hex40 (Ref b) ->
  ModuleArchive_String a = ModuleArchive_String b ->
  Host a = Host b /\ RepoOwner a = RepoOwner b /\ RepoName a = RepoName b
  /\ Ref a = Ref b /\ Tag a = Tag b.
Proof.
  intros Hha Hhb Hoa Hob Hna Hnb [Hla _] [Hlb _] E.
  unfold ModuleArchive_String in E.
  set (ta := if bool_decide (Tag a <> []) then str ":" ++ Tag a else []).
  set (tb := if bool_decide (Tag b <> []) then str ":" ++ Tag b else []).
  assert (E' : Host a ++ rune_of "/" :: RepoOwner a ++ rune_of "/" :: RepoName a
               ++ rune_of "/" :: Ref a ++ ta
               = Host b ++ rune_of "/" :: RepoOwner b ++ rune_of "/" :: RepoName b
                 ++ rune_of "/" :: Ref b ++ tb).
  { unfold ta, tb. revert E.
    repeat case_bool_decide; rewrite <- ?app_assoc, ?app_nil_r; simpl; done. }
  apply app_sep_inj in E' as [EH E']; [|done..].
  apply app_sep_inj in E' as [EO E']; [|done..].
  apply app_sep_inj in E' as [EN E']; [|done..].
  apply app_inj_1 in E' as [ER ET]; [|congruence].
  repeat split; try done.
  unfold ta, tb in ET. repeat case_bool_decide; simplify_eq/=; congruence.
Qed.

Lemma ModuleArchive_String_inj_witness :
  ModuleArchive_String sample.archive = ModuleArchive_String sample.archive_retyped
  /\ Tag sample.archive = Tag sample.archive_retyped.
Proof.
  split; [by vm_compute|].
  apply (ModuleArchive_String_inj sample.archive sample.archive_retyped);
    by_compute.
Defined.
End ParserExtras.


(** * Facts about Clean and Join of path/filepath *)

Section FilepathFacts.
Import filepath.
Implicit Types (c tail path : gostring) (out : list Z) (cs : list gostring).

Lemma Clean_loop_nil fuel rooted out dotdot :
  Clean_loop fuel rooted [] out dotdot = out.
Proof. by destruct fuel. Qed.

Lemma component_app c tail :
  Separator ∉ c -> endOrSeparator tail = true ->
  component (c ++ tail) = c /\ afterComponent (c ++ tail) = tail.
Proof.
  intros Hc Ht. induction c as [|x c IH].
  - destruct tail as [|d tail]; [done|]. simpl in *. by rewrite Ht.
  - apply not_elem_of_cons in Hc as [Hx Hc]. destruct (IH Hc) as [IH1 IH2].
    simpl. unfold IsPathSeparator. destruct (Z.eqb_spec x Separator); [done|].
    by rewrite IH1, IH2.
Qed.

(** One turn of the loop on a plain element: the element is copied, after a
    separator when the buffer needs one. *)
Lemma Clean_loop_element fuel rooted c tail out dotdot :
  plainElement c -> endOrSeparator tail = true ->
  Clean_loop (S fuel) rooted (c ++ tail) out dotdot
  = Clean_loop fuel rooted tail
      (reverse c ++
       (if (rooted && negb (length out =? 1)%nat)
           || (negb rooted && negb (length out =? 0)%nat)
        then Separator :: out else out))
      dotdot.
Proof.
  intros (Hne & Hsep & Hdot & Hdotdot) Ht.
  destruct (component_app c tail Hsep Ht) as [Hcomp Hafter].
  destruct c as [|x c]; [done|].
  assert (Hx : IsPathSeparator x = false).
  { unfold IsPathSeparator. apply Z.eqb_neq. intros ->. apply Hsep. by left. }
  assert (Hsecond : forall y c', c = y :: c' -> IsPathSeparator y = false).
  { intros y c' ->. unfold IsPathSeparator. apply Z.eqb_neq. intros ->.
    apply Hsep. right. by left. }
  assert (Hthird : forall y z c', c = y :: z :: c' -> IsPathSeparator z = false).
  { intros y z c' ->. unfold IsPathSeparator. apply Z.eqb_neq. intros ->.
    apply Hsep. right. right. by left. }
  change ((x :: c) ++ tail) with (x :: (c ++ tail)) in *.
  cbn [Clean_loop]. rewrite Hx.
  assert (Hdot2 : (x =? rune_of ".") && endOrSeparator (c ++ tail) = false).
  { destruct (Z.eqb_spec x (rune_of ".")) as [->|]; [|done].
    destruct c as [|y c']; [done|]. simpl. by rewrite (Hsecond y c'). }
  rewrite Hdot2.
  assert (Hdot3 : (x =? rune_of ".")
                  && match c ++ tail with
                     | d :: rest' => (d =? rune_of ".") && endOrSeparator rest'
                     | [] => false
                     end = false).
  { destruct (Z.eqb_spec x (rune_of ".")) as [->|]; [|done].
    destruct c as [|y c']; [done|]. simpl.
    destruct (Z.eqb_spec y (rune_of ".")) as [->|]; [|done].
    destruct c' as [|z c'']; [done|]. simpl.
    by rewrite (Hthird (rune_of ".") z c''). }
  rewrite Hdot3. by rewrite Hcomp, Hafter.
Qed.

Lemma Join_endOrSeparator cs :
  endOrSeparator (match cs with
                  | [] => []
                  | _ => Separator :: strings.Join cs [Separator]
                  end) = true.
Proof. by destruct cs. Qed.

(** The loop on a path made of plain elements copies the path. *)
Lemma Clean_loop_plain cs :
  Forall plainElement cs -> cs <> [] ->
  forall fuel out dotdot,
    (length (strings.Join cs [Separator]) <= fuel)%nat ->
    Clean_loop fuel false (strings.Join cs [Separator]) out dotdot
    = reverse (strings.Join cs [Separator])
      ++ (if negb (length out =? 0)%nat then Separator :: out else out).
Proof.
  induction 1 as [|c cs Hc Hcs IH]; [done|]. intros _ fuel out dotdot Hfuel.
  assert (Hlen : (0 < length c)%nat) by (destruct Hc as [? _]; by destruct c; [|simpl; lia]).
  destruct cs as [|c2 cs].
  - cbn [strings.Join] in *. destruct fuel as [|fuel]; [lia|].
    rewrite <- (app_nil_r c) at 1.
    rewrite Clean_loop_element by done. by rewrite Clean_loop_nil.
  - rewrite Join_cons_cons in *.
    remember (strings.Join (c2 :: cs) [Separator]) as J eqn:HJ.
    rewrite !length_app in Hfuel. cbn [length] in Hfuel.
    destruct fuel as [|[|fuel]]; [lia..|].
    rewrite Clean_loop_element by done.
    cbn [app Clean_loop negb andb orb]. unfold IsPathSeparator at 1.
    rewrite Z.eqb_refl.
    rewrite IH by (done || lia).
    rewrite !reverse_app. rewrite length_app, length_reverse.
    replace (length c + _ =? 0)%nat with false
      by (symmetry; apply Nat.eqb_neq; lia).
    cbn [negb]. rewrite <- !app_assoc, reverse_cons, <- app_assoc. done.
Qed.

Lemma Join_plain_head c cs :
  plainElement c ->
  exists x rest, strings.Join (c :: cs) [Separator] = x :: rest
                 /\ IsPathSeparator x = false.
Proof.
  intros (Hne & Hsep & _). destruct c as [|x c]; [done|].
  exists x. destruct cs; eexists; (split; [reflexivity|]);
    unfold IsPathSeparator; apply Z.eqb_neq; intros ->; apply Hsep; by left.
Qed.

Lemma Clean_plain cs :
  Forall plainElement cs -> cs <> [] ->
  Clean (strings.Join cs [Separator]) = strings.Join cs [Separator].
Proof.
  intros Hcs Hne. destruct cs as [|c cs]; [done|].
  destruct (Join_plain_head c cs) as (x & rest & E & Hx);
    [by apply Forall_cons in Hcs as [? _]|].
  unfold Clean. rewrite E, Hx, <- E.
  rewrite Clean_loop_plain by done.
  cbn [length Nat.eqb negb]. rewrite app_nil_r.
  destruct (reverse (strings.Join (c :: cs) [Separator])) eqn:Er.
  - apply (f_equal reverse) in Er. rewrite reverse_involutive in Er.
    rewrite E in Er. done.
  - unfold FromSlash. rewrite <- Er. apply reverse_involutive.
Qed.

(** Join of plain elements puts a separator between them and changes
    nothing. *)
Lemma filepath_Join_plain cs :
  Forall plainElement cs -> filepath.Join cs = strings.Join cs [Separator].
Proof.
  intros Hcs. destruct cs as [|c cs]; [done|].
  cbn [filepath.Join]. pose proof Hcs as Hc. apply Forall_cons in Hc as [(Hne & _) _].
  rewrite bool_decide_eq_true_2 by done. by apply Clean_plain.
Qed.

Lemma hex40_plainElement h : config.hex40 h -> plainElement h.
Proof.
  intros [Hlen Hhex]. repeat split.
  - by intros ->.
  - by apply hex_not_elem.
  - by intros ->.
  - by intros ->.
Qed.
(** Backing up over a buffer that holds one element empties it. *)
Lemma backup_element c : Separator ∉ c -> backup c 0 = [].
Proof.
  induction c as [|x c IH]; [done|]. intros Hc.
  apply not_elem_of_cons in Hc as [Hx Hc]. cbn [backup].
  destruct c as [|y c]; [by destruct (negb (IsPathSeparator x))|].
  assert (Hx' : IsPathSeparator x = false) by (by apply Z.eqb_neq).
  rewrite Hx'. cbn [length Nat.ltb Nat.leb andb negb]. by apply IH.
Qed.

(** Three turns of the loop on "/../": the last element of the buffer is
    taken off. *)
Lemma Clean_loop_parent fuel tail out :
  out <> [] -> endOrSeparator tail = true ->
  Clean_loop (S (S fuel)) false
    (Separator :: rune_of "." :: rune_of "." :: tail) out 0
  = Clean_loop fuel false tail (backup out 0) 0.
Proof.
  intros Hout Htail. destruct out as [|x out]; [done|].
  cbn [Clean_loop].
  change (IsPathSeparator Separator) with true. cbn iota.
  change (IsPathSeparator (rune_of ".")) with false. cbn iota.
  change (rune_of "." =? rune_of ".") with true.
  change (endOrSeparator (rune_of "." :: tail)) with false.
  rewrite Htail. cbn [andb]. cbn iota. done.
Qed.

(** "x/../" in front of a path of plain elements is dropped. *)
Lemma Clean_parent c cs :
  plainElement c -> Forall plainElement cs -> cs <> [] ->
  Clean (c ++ Separator :: rune_of "." :: rune_of "." :: Separator
           :: strings.Join cs [Separator])
  = strings.Join cs [Separator].
Proof.
  intros Hc Hcs Hne.
  set (J := strings.Join cs [Separator]).
  assert (HJ : exists x rest, J = x :: rest).
  { destruct cs as [|c' cs]; [done|].
    destruct (Join_plain_head c' cs) as (x & rest & E & _);
      [by apply Forall_cons in Hcs as [? _]|]. by exists x, rest. }
  pose proof Hc as (Hcne & Hsep & _).
  set (tail := Separator :: rune_of "." :: rune_of "." :: Separator :: J).
  assert (Hloop : forall fuel, (length J <= fuel)%nat ->
            Clean_loop (S (S (S (S fuel)))) false (c ++ tail) [] 0 = reverse J).
  { intros fuel Hfuel. rewrite Clean_loop_element by done.
    cbn [negb andb orb length Nat.eqb]. rewrite app_nil_r.
    unfold tail. rewrite Clean_loop_parent.
    - rewrite backup_element by (by rewrite elem_of_reverse).
      cbn [Clean_loop]. change (IsPathSeparator Separator) with true. cbn iota.
      unfold J. rewrite Clean_loop_plain by done. apply app_nil_r.
    - intros E. apply (f_equal reverse) in E.
      rewrite reverse_involutive in E. done.
    - done. }
  destruct c as [|x c]; [done|].
  assert (Hx : IsPathSeparator x = false).
  { apply Z.eqb_neq. intros ->. apply Hsep. by left. }
  unfold Clean. change ((x :: c) ++ tail) with (x :: (c ++ tail)).
  cbn iota. rewrite Hx.
  change (x :: (c ++ tail)) with ((x :: c) ++ tail).
  assert (Hlen : length ((x :: c) ++ tail) = S (S (S (S (length c + S (length J)))))).
  { rewrite length_app. unfold tail. cbn [length]. lia. }
  rewrite Hlen, Hloop by lia.
  destruct HJ as (y & rest & HJ).
  destruct (reverse J) eqn:Er.
  - apply (f_equal reverse) in Er. rewrite reverse_involutive, HJ in Er. done.
  - unfold FromSlash. rewrite <- Er. apply reverse_involutive.
Qed.

End FilepathFacts.

(** * Properties of the file paths of module.go *)

Section FilePathExtras.
Import strings config.

(** A line of the documented form, without surrounding white space, is
    handed to the rest of the parser as it is. *)
Lemma documented_line_parses o r p h t :
  (rune_of "/" ∉ o) -> (rune_of "/" ∉ r) -> (rune_of "@" ∉ p) -> hex40 h ->
  (forall c, last t = Some c -> unicode.IsSpace c = false) ->
  ParseModuleLine
    (str "github.com/" ++ o ++ str "/" ++ r ++ str "/" ++ p ++ str "@" ++ h
     ++ str ":" ++ t)
  = parseTrimmed false
      (str "github.com/" ++ o ++ str "/" ++ r ++ str "/" ++ p ++ str "@" ++ h
       ++ str ":" ++ t).
Proof.
  intros Ho Hr Hp Hh Ht.
  set (line := str "github.com/" ++ o ++ str "/" ++ r ++ str "/" ++ p
               ++ str "@" ++ h ++ str ":" ++ t).
  assert (Htrim : TrimSpace line = line).
  { unfold TrimSpace, TrimFunc.
    assert (Hl : TrimLeftFunc line unicode.IsSpace = line)
      by (by apply TrimLeftFunc_keep).
    rewrite Hl.
    assert (Hshape : line = (str "github.com/" ++ o ++ str "/" ++ r ++ str "/"
                             ++ p ++ str "@" ++ h) ++ rune_of ":" :: t).
    { unfold line. by rewrite <- !app_assoc. }
    rewrite Hshape at 1. rewrite TrimRightFunc_app_keep by done.
    by rewrite (TrimRightFunc_last _ t Ht), Hshape. }
  rewrite ParseModuleLine_unmarked; rewrite Htrim; done.
Qed.

Lemma plainElement_no_sep c : filepath.plainElement c -> rune_of "/" ∉ c.
Proof. by intros (_ & Hsep & _). Qed.

(** X8: for archives whose host, owner, repository name and ref are plain
    path elements, FilePath is "host/owner/name/ref", and two archives with
    the same FilePath have the same host, owner, name and ref: the type and
    the tag have no part in the path. *)
Theorem ModuleArchive_FilePath_plain (a b : ModuleArchive) :
  plainArchive a -> plainArchive b ->
  ModuleArchive_FilePath a
  = Host a ++ str "/" ++ RepoOwner a ++ str "/" ++ RepoName a ++ str "/" ++ Ref a
  /\ (ModuleArchive_FilePath a = ModuleArchive_FilePath b ->
      Host a = Host b /\ RepoOwner a = RepoOwner b /\ RepoName a = RepoName b
      /\ Ref a = Ref b).
Proof.
  assert (Hform : forall m, plainArchive m ->
            ModuleArchive_FilePath m
            = Host m ++ rune_of "/" :: RepoOwner m ++ rune_of "/" :: RepoName m
              ++ rune_of "/" :: Ref m).
  { intros m (Hh & Ho & Hn & Hr). unfold ModuleArchive_FilePath.
    rewrite filepath_Join_plain by (repeat apply Forall_cons_2; done). done. }
  intros Ha Hb. split; [by rewrite Hform|].
  rewrite !Hform by done. intros E.
  destruct Ha as (Hha & Hoa & Hna & _), Hb as (Hhb & Hob & Hnb & _).
  apply app_sep_inj in E as [EH E]; [|by apply plainElement_no_sep..].
  apply app_sep_inj in E as [EO E]; [|by apply plainElement_no_sep..].
  apply app_sep_inj in E as [EN E]; [|by apply plainElement_no_sep..].
  done.
Qed.

Lemma sample_archive_plain : plainArchive sample.archive.
Proof.
  assert (Hplain : forall c, bool_decide (c <> [] /\ (rune_of "/" ∉ c)
                                          /\ c <> str "." /\ c <> str "..") = true
                             -> filepath.plainElement c).
  { intros c Hc. by apply bool_decide_eq_true in Hc. }
  repeat split; try apply Hplain; try done; by_compute.
Qed.

Lemma ModuleArchive_FilePath_plain_witness :
  plainArchive sample.archive /\ plainArchive sample.archive_retagged
  /\ ModuleArchive_FilePath sample.archive
     = str "github.com/o/r/0123456789abcdef0123456789ABCDEF01234567"
  /\ ModuleArchive_FilePath sample.archive
     = ModuleArchive_FilePath sample.archive_retagged.
Proof.
  assert (Ha : plainArchive sample.archive) by exact sample_archive_plain.
  assert (Hb : plainArchive sample.archive_retagged) by exact sample_archive_plain.
  split; [done|]. split; [done|].
  destruct (ModuleArchive_FilePath_plain sample.archive sample.archive_retagged Ha Hb)
    as [Hform _].
  split; [by rewrite Hform|]. by vm_compute.
Defined.

(** X9: the FilePath of a module imported from a line
    "github.com/o/r/p@h:t", with plain owner, repository name and path
    elements, is the path of its archive followed by its slash path, which
    names host, owner, repository and ref a second time:
    "github.com/o/r/h/github.com/o/r/h/p". *)
Theorem ParseImport_FilePath o r ps h t :
  filepath.plainElement o -> filepath.plainElement r ->
  Forall filepath.plainElement ps -> ps <> [] ->
  (rune_of "@" ∉ Join ps (str "/")) -> hex40 h ->
  (forall c, last t = Some c -> unicode.IsSpace c = false) ->
  exists m,
    ParseImport (str "github.com/" ++ o ++ str "/" ++ r ++ str "/"
                 ++ Join ps (str "/") ++ str "@" ++ h ++ str ":" ++ t) = Ok m
    /\ Module_SlashPath m
       = str "github.com/" ++ o ++ str "/" ++ r ++ str "/" ++ h ++ str "/"
         ++ Join ps (str "/")
    /\ Module_FilePath m
       = str "github.com/" ++ o ++ str "/" ++ r ++ str "/" ++ h
         ++ str "/github.com/" ++ o ++ str "/" ++ r ++ str "/" ++ h ++ str "/"
         ++ Join ps (str "/").
Proof.
  intros Ho Hr Hps Hne Hat Hh Ht.
  pose proof (hex40_plainElement h Hh) as Hhp.
  unfold ParseImport.
  rewrite documented_line_parses by (done || by apply plainElement_no_sep).
  rewrite parseTrimmed_github by (done || by apply plainElement_no_sep).
  eexists. split; [reflexivity|]. split; [reflexivity|].
  unfold Module_FilePath. cbn [Module_Archive Module_SlashPath].
  unfold ModuleArchive_FilePath, filepath.FromSlash.
  cbn [Archive SlashPath Host RepoOwner RepoName Ref].
  assert (Hcs : Forall filepath.plainElement [str "github.com"; o; r; h]).
  { repeat apply Forall_cons_2; try done. repeat split; (done || by_compute). }
  rewrite (filepath_Join_plain [str "github.com"; o; r; h]) by done.
  assert (Hslash : str "github.com/" ++ o ++ str "/" ++ r ++ str "/" ++ h
                   ++ str "/" ++ Join ps (str "/")
                   = Join ([str "github.com"; o; r; h] ++ ps) [filepath.Separator]).
  { rewrite Join_app by done. rewrite !Join_cons_cons.
    change (Join [h] [filepath.Separator]) with h.
    rewrite <- !app_assoc. reflexivity. }
  rewrite Hslash.
  assert (Hjoin : filepath.Join
                    [Join [str "github.com"; o; r; h] [filepath.Separator];
                     Join ([str "github.com"; o; r; h] ++ ps) [filepath.Separator]]
                  = Join ([str "github.com"; o; r; h]
                          ++ [str "github.com"; o; r; h] ++ ps)
                         [filepath.Separator]).
  { cbn [filepath.Join]. rewrite bool_decide_eq_true_2 by done.
    rewrite <- (Clean_plain ([str "github.com"; o; r; h]
                             ++ [str "github.com"; o; r; h] ++ ps)).
    - f_equal.
      by rewrite (Join_app [str "github.com"; o; r; h]
                           ([str "github.com"; o; r; h] ++ ps)).
    - by rewrite !Forall_app.
    - done. }
  rewrite Hjoin, (Join_app [str "github.com"; o; r; h]) by done.
  rewrite (Join_app [str "github.com"; o; r; h] ps) by done.
  rewrite !Join_cons_cons. change (Join [h] [filepath.Separator]) with h.
  rewrite <- !app_assoc. reflexivity.
Qed.

Lemma plainElement_decide c :
  bool_decide (c <> [] /\ (rune_of "/" ∉ c) /\ c <> str "." /\ c <> str "..") = true ->
  filepath.plainElement c.
Proof. intros Hc. by apply bool_decide_eq_true in Hc. Qed.

Lemma ParseImport_FilePath_witness :
  exists m,
    ParseImport sample.line = Ok m
    /\ Module_FilePath m
       = str "github.com/o/r/0123456789abcdef0123456789ABCDEF01234567/github.com/o/r/0123456789abcdef0123456789ABCDEF01234567/p".
Proof.
  destruct (ParseImport_FilePath (str "o") (str "r") [str "p"] sample.hash (str "tag"))
    as (m & Hm & _ & Hpath).
  - by apply plainElement_decide.
  - by apply plainElement_decide.
  - apply Forall_cons_2; [by apply plainElement_decide | constructor].
  - done.
  - by_compute.
  - split; [by vm_compute | by_compute].
  - intros c Hc. vm_compute in Hc. injection Hc as <-. by vm_compute.
  - exists m. split; [exact Hm | exact Hpath].
Defined.

(** X10: a declaration whose owner is ".." is accepted, and the path of its
    archive leaves the host directory: for "github.com/../r/p@h:t" with a
    plain repository name, FilePath is "r/h", without "github.com". *)
Theorem ModuleArchive_FilePath_parent_owner r p h t :
  filepath.plainElement r -> (rune_of "@" ∉ p) -> hex40 h ->
  (forall c, last t = Some c -> unicode.IsSpace c = false) ->
  exists m a,
    ParseModuleLine (str "github.com/../" ++ r ++ str "/" ++ p ++ str "@" ++ h
                     ++ str ":" ++ t) = Ok m
    /\ Archive m = Some a
    /\ Host a = str "github.com" /\ RepoOwner a = str ".."
    /\ ModuleArchive_FilePath a = r ++ str "/" ++ h.
Proof.
  intros Hr Hat Hh Ht.
  pose proof (hex40_plainElement h Hh) as Hhp.
  assert (Hdots : rune_of "/" ∉ str "..") by by_compute.
  pose proof (documented_line_parses (str "..") r p h t Hdots
                (plainElement_no_sep r Hr) Hat Hh Ht) as Hparse.
  rewrite (parseTrimmed_github false (str "..") r p h t Hdots
             (plainElement_no_sep r Hr) Hat Hh) in Hparse.
  eexists. eexists. split; [exact Hparse|].
  split; [reflexivity|]. split; [reflexivity|]. split; [reflexivity|].
  unfold ModuleArchive_FilePath. cbn [Host RepoOwner RepoName Ref].
  cbn [filepath.Join]. rewrite bool_decide_eq_true_2 by done.
  assert (Hplain : filepath.plainElement (str "github.com"))
    by (repeat split; (done || by_compute)).
  assert (Hcs : Forall filepath.plainElement [r; h])
    by (repeat apply Forall_cons_2; done).
  exact (Clean_parent (str "github.com") [r; h] Hplain Hcs ltac:(done)).
Qed.

Lemma ModuleArchive_FilePath_parent_owner_witness :
  exists m a,
    ParseModuleLine
      (str "github.com/../r/p@0123456789abcdef0123456789ABCDEF01234567:tag") = Ok m
    /\ Archive m = Some a
    /\ ModuleArchive_FilePath a = str "r/0123456789abcdef0123456789ABCDEF01234567".
Proof.
  destruct (ModuleArchive_FilePath_parent_owner (str "r") (str "p") sample.hash (str "tag"))
    as (m & a & Hm & Ha & _ & _ & Hpath).
  - by apply plainElement_decide.
  - by_compute.
  - split; [by vm_compute | by_compute].
  - intros c Hc. vm_compute in Hc. injection Hc as <-. by vm_compute.
  - exists m, a. split; [exact Hm|]. split; [exact Ha | exact Hpath].
Defined.
End FilePathExtras.

(** * More facts about the loops *)

Section LoopFacts.
Context `{jsonnet.Engine}.

Lemma exec_bind_ext {A B} (k k' : A -> exec B) (m : exec A) :
  (forall a, k a = k' a) -> exec_bind k m = exec_bind k' m.
Proof. intros Hk. destruct m as [[a|] w]; [|done]. simpl. by rewrite Hk. Qed.

(** The loop that fills a slice depends on the body at the elements only. *)
Lemma fill_from_ext {A T} (f g : A -> exec T) xs :
  (forall x, x ∈ xs -> f x = g x) ->
  forall i results, fill_from f i xs results = fill_from g i xs results.
Proof.
  induction xs as [|x xs IH]; intros Hfg i results; [done|].
  cbn [fill_from]. rewrite <- (Hfg x) by left.
  apply exec_bind_ext. intros v. apply exec_bind_ext. intros results'.
  apply IH. intros y Hy. apply Hfg. by right.
Qed.

Lemma length_concat_le {A B} (g : A -> list B) xs :
  (forall x, (length (g x) <= 1)%nat) ->
  (length (concat (map g xs)) <= length xs)%nat.
Proof.
  intros Hg. induction xs as [|x xs IH]; [done|].
  simpl. rewrite length_app. specialize (Hg x). lia.
Qed.
End LoopFacts.

(** * Properties of the parser and the evaluator of rule files *)

Section EvaluatorExtras.
Context `{jsonnet.Engine} `{domain.Types} `{!lint.Json}.
Import lint.

Lemma Parse_Ok lintFile n :
  Parse lintFile = Ok n
  <-> jsonnet.ReadToNode (configLintFile.Path lintFile) = Ok (domain.Node_ n)
      /\ domain.Key n = configLintFile.ID lintFile
      /\ domain.Config n = configLintFile.Config lintFile
      /\ domain.Combine n
         = strings.HasSuffix (configLintFile.Path lintFile) (str "_combine.jsonnet").
Proof.
  unfold Parse. destruct (jsonnet.ReadToNode (configLintFile.Path lintFile)) as [node|e].
  - split.
    + by intros [= <-].
    + intros (Hn & Hk & Hc & Hb). destruct n. simpl in *. by simplify_eq.
  - split; [done|]. by intros (? & _).
Qed.

Lemma Parse_Err lintFile e :
  Parse lintFile = Err e <-> jsonnet.ReadToNode (configLintFile.Path lintFile) = Err e.
Proof.
  unfold Parse. destruct (jsonnet.ReadToNode (configLintFile.Path lintFile));
    split; congruence.
Qed.

Lemma Parses_from_Ok lintFiles acc nodes :
  Parses_from lintFiles acc = Ok nodes
  <-> exists new, nodes = acc ++ new
                  /\ Forall2 (fun lintFile n => Parse lintFile = Ok n) lintFiles new.
Proof.
  revert acc. induction lintFiles as [|lf rest IH]; intros acc; cbn [Parses_from].
  - split.
    + intros [= <-]. exists []. by rewrite app_nil_r.
    + intros (new & -> & ->%Forall2_nil_inv_l). by rewrite app_nil_r.
  - destruct (Parse lf) as [n|e] eqn:E.
    + rewrite IH. split.
      * intros (new & -> & HF). exists (n :: new). rewrite <- app_assoc.
        split; [done|]. by constructor.
      * intros (new & -> & HF).
        apply Forall2_cons_inv_l in HF as (n' & new' & Hn & HF & ->).
        rewrite E in Hn. simplify_eq. exists new'. by rewrite <- app_assoc.
    + split; [done|]. intros (new & _ & HF).
      apply Forall2_cons_inv_l in HF as (n' & new' & Hn & _). congruence.
Qed.

Lemma Parses_from_Err lintFiles acc e :
  Parses_from lintFiles acc = Err e
  <-> exists before lintFile after,
        lintFiles = before ++ lintFile :: after
        /\ Forall (fun lf => exists n, Parse lf = Ok n) before
        /\ Parse lintFile = Err e.
Proof.
  revert acc. induction lintFiles as [|lf rest IH]; intros acc; cbn [Parses_from].
  - split; [done|]. intros (before & lf & after & E & _). by destruct before.
  - destruct (Parse lf) as [n|e'] eqn:E.
    + rewrite IH. split.
      * intros (before & lf' & after & -> & HF & He).
        exists (lf :: before), lf', after. split; [done|]. split; [|done].
        constructor; eauto.
      * intros (before & lf' & after & Heq & HF & He).
        destruct before as [|b before]; simplify_eq/=; [congruence|].
        apply Forall_cons in HF as [_ HF]. by exists before, lf', after.
    + split.
      * intros [= ->]. by exists [], lf, rest.
      * intros (before & lf' & after & Heq & HF & He).
        destruct before as [|b before]; simplify_eq/=; [congruence|].
        apply Forall_cons in HF as [[n Hn] _]. congruence.
Qed.

(** X11: Parses gives all the nodes or none. It returns nodes exactly when
    every rule file can be read, and then one node for each file, in the
    order of the files, with the file's id as key, its configuration, and
    the combine flag of its path; it returns an error exactly when some
    file cannot be read, and then the error of the first such file. *)
Theorem Parses_all_or_nothing (lintFiles : list configLintFile.LintFile) :
  (forall nodes,
      Parses lintFiles = Ok nodes
      <-> Forall2 (fun lintFile n =>
                     jsonnet.ReadToNode (configLintFile.Path lintFile)
                     = Ok (domain.Node_ n)
                     /\ domain.Key n = configLintFile.ID lintFile
                     /\ domain.Config n = configLintFile.Config lintFile
                     /\ domain.Combine n
                        = strings.HasSuffix (configLintFile.Path lintFile)
                                            (str "_combine.jsonnet"))
                  lintFiles nodes)
  /\ (forall e,
        Parses lintFiles = Err e
        <-> exists before lintFile after,
              lintFiles = before ++ lintFile :: after
              /\ Forall (fun lf => exists node,
                           jsonnet.ReadToNode (configLintFile.Path lf) = Ok node)
                        before
              /\ jsonnet.ReadToNode (configLintFile.Path lintFile) = Err e).
Proof.
  split.
  - intros nodes. unfold Parses. rewrite Parses_from_Ok. split.
    + intros (new & -> & HF). simpl.
      eapply Forall2_impl; [exact HF|]. intros lf n. by rewrite Parse_Ok.
    + intros HF. exists nodes. split; [done|].
      eapply Forall2_impl; [exact HF|]. intros lf n. by rewrite Parse_Ok.
  - intros e. unfold Parses. rewrite Parses_from_Err. split.
    + intros (before & lf & after & -> & HF & He).
      exists before, lf, after. split; [done|]. split; [|by apply Parse_Err].
      eapply Forall_impl; [exact HF|]. intros lf' [n Hn].
      apply Parse_Ok in Hn as [Hn _]. eauto.
    + intros (before & lf & after & -> & HF & He).
      exists before, lf, after. split; [done|]. split; [|by apply Parse_Err].
      eapply Forall_impl; [exact HF|]. intros lf' [node Hnode].
      unfold Parse. rewrite Hnode. eauto.
Qed.

(** What one turn of the loop of Evaluates asks of the engine. *)
Lemma evaluated_trace tla n :
  trace (evaluated tla n)
  = match Marshal {| domain.tlaData := domain.tlaData tla;
                     domain.tlaCombinedData := domain.tlaCombinedData tla;
                     domain.tlaConfig := Some (default ∅ (domain.Config n)) |} with
    | Ok tlaB => [(tlaB, domain.Node_ n)]
    | Err _ => []
    end.
Proof.
  destruct (Evaluate_total (argumentOf tla n) (domain.Node_ n)) as [r Hr].
  rewrite (evaluated_unfold _ _ r Hr). cbn [trace snd].
  rewrite Evaluate_unfold.
  assert (Harg : ensureConfig (argumentOf tla n)
                 = {| domain.tlaData := domain.tlaData tla;
                      domain.tlaCombinedData := domain.tlaCombinedData tla;
                      domain.tlaConfig := Some (default ∅ (domain.Config n)) |}).
  { unfold ensureConfig, argumentOf. simpl. by destruct (domain.Config n). }
  rewrite Harg. by destruct (Marshal _).
Qed.

(** X13: the engine invocations of Evaluates. Rule by rule, in the order of
    the rules, the engine is invoked once, on the node of the rule, with the
    JSON text of the caller's data and combined data and of the rule's own
    configuration (the empty map when the rule has none); a rule whose
    argument cannot be marshalled is not evaluated. So there are at most as
    many invocations as rules. *)
Theorem Evaluates_invocations
    (tla : domain.TopLevelArgment) (lintFiles : list domain.Node) :
  trace (Evaluates tla lintFiles)
  = concat (map (fun n =>
      match Marshal {| domain.tlaData := domain.tlaData tla;
                       domain.tlaCombinedData := domain.tlaCombinedData tla;
                       domain.tlaConfig := Some (default ∅ (domain.Config n)) |} with
      | Ok tlaB => [(tlaB, domain.Node_ n)]
      | Err _ => []
      end) lintFiles)
  /\ (length (trace (Evaluates tla lintFiles)) <= length lintFiles)%nat.
Proof.
  destruct (Evaluates_spec tla lintFiles) as (results & _ & ->). cbn [trace snd].
  assert (Heq : map (fun lintFile => trace (evaluated tla lintFile)) lintFiles
                = map (fun n =>
                    match Marshal {| domain.tlaData := domain.tlaData tla;
                                     domain.tlaCombinedData := domain.tlaCombinedData tla;
                                     domain.tlaConfig := Some (default ∅ (domain.Config n)) |}
                    with
                    | Ok tlaB => [(tlaB, domain.Node_ n)]
                    | Err _ => []
                    end) lintFiles).
  { apply map_ext. intros n. apply evaluated_trace. }
  rewrite Heq. split; [done|].
  apply length_concat_le. intros n. destruct (Marshal _); simpl; lia.
Qed.

(** X14: Evaluates reads the data and the combined data of its argument and
    nothing else: the configuration the caller put there decides neither a
    result nor an invocation, each rule being evaluated under its own. *)
Theorem Evaluates_ignores_caller_config
    (tla tla' : domain.TopLevelArgment) (lintFiles : list domain.Node) :
  domain.tlaData tla = domain.tlaData tla' ->
  domain.tlaCombinedData tla = domain.tlaCombinedData tla' ->
  Evaluates tla lintFiles = Evaluates tla' lintFiles.
Proof.
  intros Hd Hc. unfold Evaluates, make_and_fill. apply fill_from_ext.
  intros n _. unfold evaluated, argumentOf. by rewrite Hd, Hc.
Qed.

(** X15: a result of Evaluates has an empty error text exactly when every
    stage succeeded for its rule: the argument was marshalled, the engine
    returned an output, and the output decoded both as an untyped value and
    as a list of findings; the result then holds these. A result that holds
    findings has an empty error text. *)
Theorem Evaluates_result_without_error
    (tla : domain.TopLevelArgment) (lintFiles : list domain.Node)
    (results : list (option domain.Result)) (i : nat) (n : domain.Node)
    (r : domain.Result) :
  value (Evaluates tla lintFiles) = Some results ->
  lintFiles !! i = Some n ->
  results !! i = Some (Some r) ->
  (domain.Error r = []
   <-> exists tlaB s v out,
         Marshal (ensureConfig (argumentOf tla n)) = Ok tlaB
         /\ jsonnet.Evaluate tlaB (domain.Node_ n) = Ok s
         /\ Unmarshal_any s = Ok v
         /\ Unmarshal_results s = Ok out
         /\ r = {| domain.LintFile := domain.Key n;
                   domain.RawResult := out;
                   domain.RawOutput := s;
                   domain.Interface := v;
                   domain.Error := [] |})
  /\ (domain.RawResult r <> None -> domain.Error r = []).
Proof.
  intros Hv Hn Hr.
  destruct (Evaluates_spec tla lintFiles) as (results' & HF & Heq).
  rewrite Heq in Hv. simplify_eq/=.
  destruct (Forall2_lookup_l _ _ _ _ _ HF Hn) as (r0 & Hr0 & Hval).
  destruct (Evaluate_total (argumentOf tla n) (domain.Node_ n)) as [o Ho].
  rewrite (evaluated_unfold _ _ o Ho) in Hval. simplify_eq/=.
  rewrite Evaluate_unfold in Ho.
  destruct (Marshal (ensureConfig (argumentOf tla n))) as [tlaB|em] eqn:Em;
    simplify_eq/=.
  - destruct (jsonnet.Evaluate tlaB (domain.Node_ n)) as [s|ee] eqn:Ee; simpl.
    + unfold parseResult.
      destruct (Unmarshal_any s) as [v|ea] eqn:Ea; simpl.
      * destruct (Unmarshal_results s) as [out|er] eqn:Er; simpl.
        -- split; [|done]. split; [|done]. intros _. by exists tlaB, s, v, out.
        -- split; [|done]. split.
           ++ intros Hnil. by apply fmt_Errorf_nonempty in Hnil.
           ++ intros (? & ? & ? & ? & ? & ? & ? & ? & _). simplify_eq; congruence.
      * split; [|done]. split.
        -- intros Hnil. by apply fmt_Errorf_nonempty in Hnil.
        -- intros (? & ? & ? & ? & ? & ? & ? & _). simplify_eq; congruence.
    + split; [|done]. split.
      * intros Hnil. by apply fmt_Errorf_nonempty in Hnil.
      * intros (? & ? & ? & ? & ? & ? & _). simplify_eq; congruence.
  - split; [|done]. split.
    + intros Hnil. by apply fmt_Errorf_nonempty in Hnil.
    + intros (? & ? & ? & ? & ? & _). simplify_eq; congruence.
Qed.
End EvaluatorExtras.

(** * Properties of the controller *)

Section ControllerExtras.
Context `{jsonnet.Engine} `{controller.Types} `{!controller.Collaborators}.
Import controller.

Lemma parseLintFile_Ok lintFile n :
  parseLintFile lintFile = Ok n
  <-> jsonnet.ReadToNode (Path lintFile) = Ok (Node_ n)
      /\ Key n = (if bool_decide (ModulePath lintFile <> [])
                  then ModulePath lintFile else Path lintFile)
      /\ Custom n = Param lintFile.
Proof.
  unfold parseLintFile. destruct (jsonnet.ReadToNode (Path lintFile)) as [node|e].
  - split.
    + by intros [= <-].
    + intros (Hn & Hk & Hc). destruct n. simpl in *. by simplify_eq.
  - split; [done|]. by intros (? & _).
Qed.

Lemma parseLintFile_Err lintFile e :
  parseLintFile lintFile = Err e <-> jsonnet.ReadToNode (Path lintFile) = Err e.
Proof.
  unfold parseLintFile. destruct (jsonnet.ReadToNode (Path lintFile));
    split; congruence.
Qed.

Lemma parseLintFiles_from_Ok lintFiles acc nodes :
  parseLintFiles_from lintFiles acc = Ok nodes
  <-> exists new, nodes = acc ++ new
                  /\ Forall2 (fun lintFile n => parseLintFile lintFile = Ok n)
                             lintFiles new.
Proof.
  revert acc. induction lintFiles as [|lf rest IH]; intros acc;
    cbn [parseLintFiles_from].
  - split.
    + intros [= <-]. exists []. by rewrite app_nil_r.
    + intros (new & -> & ->%Forall2_nil_inv_l). by rewrite app_nil_r.
  - destruct (parseLintFile lf) as [n|e] eqn:E.
    + rewrite IH. split.
      * intros (new & -> & HF). exists (n :: new). rewrite <- app_assoc.
        split; [done|]. by constructor.
      * intros (new & -> & HF).
        apply Forall2_cons_inv_l in HF as (n' & new' & Hn & HF & ->).
        rewrite E in Hn. simplify_eq. exists new'. by rewrite <- app_assoc.
    + split; [done|]. intros (new & _ & HF).
      apply Forall2_cons_inv_l in HF as (n' & new' & Hn & _). congruence.
Qed.

Lemma parseLintFiles_from_Err lintFiles acc e :
  parseLintFiles_from lintFiles acc = Err e
  <-> exists before lintFile after,
        lintFiles = before ++ lintFile :: after
        /\ Forall (fun lf => exists n, parseLintFile lf = Ok n) before
        /\ parseLintFile lintFile = Err e.
Proof.
  revert acc. induction lintFiles as [|lf rest IH]; intros acc;
    cbn [parseLintFiles_from].
  - split; [done|]. intros (before & lf & after & E & _). by destruct before.
  - destruct (parseLintFile lf) as [n|e'] eqn:E.
    + rewrite IH. split.
      * intros (before & lf' & after & -> & HF & He).
        exists (lf :: before), lf', after. split; [done|]. split; [|done].
        constructor; eauto.
      * intros (before & lf' & after & Heq & HF & He).
        destruct before as [|b before]; simplify_eq/=; [congruence|].
        apply Forall_cons in HF as [_ HF]. by exists before, lf', after.
    + split.
      * intros [= ->]. by exists [], lf, rest.
      * intros (before & lf' & after & Heq & HF & He).
        destruct before as [|b before]; simplify_eq/=; [congruence|].
        apply Forall_cons in HF as [[n Hn] _]. congruence.
Qed.

(** X12: parseLintFiles gives all the nodes or none. It returns nodes
    exactly when every rule file can be read, and then one node for each
    file, in the order of the files, with the file's parameters; the key of
    a node is the module path of its file, or the path when the module path
    is empty. It returns an error exactly when some file cannot be read, and
    then the error of the first such file. *)
Theorem parseLintFiles_all_or_nothing (lintFiles : list LintFile) :
  (forall nodes,
      parseLintFiles lintFiles = Ok nodes
      <-> Forall2 (fun lintFile n =>
                     jsonnet.ReadToNode (Path lintFile) = Ok (Node_ n)
                     /\ Key n = (if bool_decide (ModulePath lintFile <> [])
                                 then ModulePath lintFile else Path lintFile)
                     /\ Custom n = Param lintFile)
                  lintFiles nodes)
  /\ (forall e,
        parseLintFiles lintFiles = Err e
        <-> exists before lintFile after,
              lintFiles = before ++ lintFile :: after
              /\ Forall (fun lf => exists node,
                           jsonnet.ReadToNode (Path lf) = Ok node) before
              /\ jsonnet.ReadToNode (Path lintFile) = Err e).
Proof.
  split.
  - intros nodes. unfold parseLintFiles. rewrite parseLintFiles_from_Ok. split.
    + intros (new & -> & HF). simpl.
      eapply Forall2_impl; [exact HF|]. intros lf n. by rewrite parseLintFile_Ok.
    + intros HF. exists nodes. split; [done|].
      eapply Forall2_impl; [exact HF|]. intros lf n. by rewrite parseLintFile_Ok.
  - intros e. unfold parseLintFiles. rewrite parseLintFiles_from_Err. split.
    + intros (before & lf & after & -> & HF & He).
      exists before, lf, after. split; [done|]. split; [|by apply parseLintFile_Err].
      eapply Forall_impl; [exact HF|]. intros lf' [n Hn].
      apply parseLintFile_Ok in Hn as [Hn _]. eauto.
    + intros (before & lf & after & -> & HF & He).
      exists before, lf, after. split; [done|]. split; [|by apply parseLintFile_Err].
      eapply Forall_impl; [exact HF|]. intros lf' [node Hnode].
      unfold parseLintFile. rewrite Hnode. eauto.
Qed.

(** The invocations of lint: none for a data file that cannot be parsed,
    else those of the rules in order. *)
Lemma lint_trace dataFile jsonnetAsts :
  trace (lint dataFile jsonnetAsts)
  = match parseDataFile dataFile with
    | Ok data =>
        concat (map (fun ja =>
          match Marshal (argumentOf data ja) with
          | Ok tlaB => [(tlaB, Node_ ja)]
          | Err _ => []
          end) jsonnetAsts)
    | Err _ => []
    end.
Proof.
  pose proof (lint_spec dataFile jsonnetAsts) as Hl.
  destruct (parseDataFile dataFile) as [data|e]; [|by rewrite Hl].
  destruct Hl as (results & _ & ->). cbn [trace snd]. f_equal.
  apply map_ext. intros ja. rewrite evaluateNode_unfold.
  by destruct (Marshal (argumentOf data ja)).
Qed.

Lemma lintTarget_from_trace (dataFiles : list gostring) (jsonnetAsts : list Node)
    (results : gmap gostring FileResult) :
  trace (lintTarget_from dataFiles jsonnetAsts results)
  = concat (map (fun dataFile => trace (lint dataFile jsonnetAsts)) dataFiles).
Proof.
  revert results. induction dataFiles as [|d rest IH]; intros results; [done|].
  destruct (lint_total d jsonnetAsts) as [r Hr].
  cbn [lintTarget_from]. unfold mbind, exec_mbind.
  rewrite (exec_eta (lint d jsonnetAsts)), Hr, exec_bind_Some.
  cbn [trace snd map concat]. by rewrite IH.
Qed.

(** The invocations of lintTarget do not depend on the map it writes to. *)
Lemma lintTarget_trace (target : Target) (results : gmap gostring FileResult) :
  trace (lintTarget target results)
  = match readJsonnets (LintFiles target) with
    | Ok jsonnetAsts =>
        concat (map (fun dataFile => trace (lint dataFile jsonnetAsts))
                    (DataFiles target))
    | Err _ => []
    end.
Proof.
  unfold lintTarget. destruct (readJsonnets (LintFiles target)) as [asts|e]; [|done].
  destruct (lintTarget_from_spec (DataFiles target) asts results) as (results' & Hv & _).
  unfold mbind, exec_mbind.
  rewrite (exec_eta (lintTarget_from _ _ _)), Hv, exec_bind_Some.
  cbn [trace snd]. by rewrite app_nil_r, lintTarget_from_trace.
Qed.

Lemma getResults_from_trace (targets : list Target) (results : gmap gostring FileResult) :
  Forall (fun t => exists asts, readJsonnets (LintFiles t) = Ok asts) targets ->
  trace (getResults_from targets results)
  = concat (map (fun t => trace (lintTarget t ∅)) targets).
Proof.
  revert results. induction targets as [|t0 rest IH]; intros results HF; [done|].
  apply Forall_cons in HF as [[asts0 Hread0] HF].
  destruct (lintTarget_spec t0 asts0 results Hread0) as (results1 & Hv1 & _).
  cbn [getResults_from]. unfold mbind, exec_mbind.
  rewrite (exec_eta (lintTarget t0 results)), Hv1, exec_bind_Some.
  cbn [trace snd map concat]. rewrite (IH results1 HF).
  by rewrite (lintTarget_trace t0 results), (lintTarget_trace t0 ∅).
Qed.

Lemma getResults_from_trace_prefix (before : list Target) (t : Target)
    (after : list Target) (results : gmap gostring FileResult) (e : gostring) :
  Forall (fun t => exists asts, readJsonnets (LintFiles t) = Ok asts) before ->
  readJsonnets (LintFiles t) = Err e ->
  trace (getResults_from (before ++ t :: after) results)
  = trace (getResults_from before results).
Proof.
  revert results. induction before as [|t0 rest IH]; intros results HF Hread.
  - cbn [app getResults_from]. unfold lintTarget. by rewrite Hread.
  - apply Forall_cons in HF as [[asts0 Hread0] HF].
    destruct (lintTarget_spec t0 asts0 results Hread0) as (results1 & Hv1 & _).
    change ((t0 :: rest) ++ t :: after) with (t0 :: (rest ++ t :: after)).
    cbn [getResults_from]. unfold mbind, exec_mbind.
    rewrite (exec_eta (lintTarget t0 results)), Hv1, !exec_bind_Some.
    cbn [trace snd]. f_equal. by apply IH.
Qed.

Lemma getResults_from_Err_inv (targets : list Target)
    (results : gmap gostring FileResult) (e : gostring) :
  value (getResults_from targets results) = Some (Err e) ->
  exists before t after,
    targets = before ++ t :: after
    /\ Forall (fun t => exists asts, readJsonnets (LintFiles t) = Ok asts) before
    /\ readJsonnets (LintFiles t) = Err e.
Proof.
  revert results. induction targets as [|t0 rest IH]; intros results Hv; [done|].
  destruct (readJsonnets (LintFiles t0)) as [asts0|e0] eqn:Hread0.
  - destruct (lintTarget_spec t0 asts0 results Hread0) as (results1 & Hv1 & _).
    cbn [getResults_from] in Hv. unfold mbind, exec_mbind in Hv.
    rewrite (exec_eta (lintTarget t0 results)), Hv1, exec_bind_Some in Hv.
    cbn [value fst] in Hv.
    destruct (IH results1 Hv) as (before & t & after & -> & HF & He).
    exists (t0 :: before), t, after. split; [done|]. split; [|done].
    constructor; eauto.
  - cbn [getResults_from] in Hv. unfold lintTarget in Hv. rewrite Hread0 in Hv.
    simplify_eq/=. by exists [], t0, rest.
Qed.

(** X16: getResults fails exactly when the rules of some target cannot be
    read, with the error of the first such target. The targets before it
    have been evaluated by then, with the same engine invocations as if
    they were all the targets; the targets after it are not touched. *)
Theorem getResults_fails_at_first_unreadable_target (targets : list Target) :
  (forall e,
      value (getResults targets) = Some (Err e)
      <-> exists before t after,
            targets = before ++ t :: after
            /\ Forall (fun t => exists asts, readJsonnets (LintFiles t) = Ok asts)
                      before
            /\ readJsonnets (LintFiles t) = Err e)
  /\ (forall before t after e,
        targets = before ++ t :: after ->
        Forall (fun t => exists asts, readJsonnets (LintFiles t) = Ok asts) before ->
        readJsonnets (LintFiles t) = Err e ->
        getResults targets = (Some (Err e), trace (getResults before))).
Proof.
  split.
  - intros e. split.
    + apply getResults_from_Err_inv.
    + intros (before & t & after & -> & HF & He).
      by apply getResults_from_read_failure.
  - intros before t after e -> HF He.
    rewrite (exec_eta (getResults _)). unfold getResults. f_equal.
    + by apply getResults_from_read_failure.
    + by apply (getResults_from_trace_prefix before t after ∅ e).
Qed.

(** X17: the engine invocations of getResults, when the rules of every
    target can be read. Target by target, data file by data file, rule by
    rule, in that order, the engine is invoked once, on the node of the
    rule, with the JSON text of the parsed data file and the rule's
    parameters; a data file that cannot be parsed and a rule whose argument
    cannot be marshalled cause no invocation. *)
Theorem getResults_invocations (targets : list Target) :
  Forall (fun t => exists asts, readJsonnets (LintFiles t) = Ok asts) targets ->
  trace (getResults targets)
  = concat (map (fun t =>
      match readJsonnets (LintFiles t) with
      | Ok jsonnetAsts =>
          concat (map (fun dataFile =>
            match parseDataFile dataFile with
            | Ok data =>
                concat (map (fun ja =>
                  match Marshal (argumentOf data ja) with
                  | Ok tlaB => [(tlaB, Node_ ja)]
                  | Err _ => []
                  end) jsonnetAsts)
            | Err _ => []
            end) (DataFiles t))
      | Err _ => []
      end) targets).
Proof.
  intros HF. unfold getResults. rewrite (getResults_from_trace targets ∅ HF).
  f_equal. apply map_ext. intros t. rewrite lintTarget_trace.
  destruct (readJsonnets (LintFiles t)) as [asts|e]; [|done].
  f_equal. apply map_ext. intros dataFile. apply lint_trace.
Qed.

(** X18: a data file that cannot be parsed costs its own entry only. When
    the rules of every target can be read, getResults succeeds, and each
    entry of its map either belongs to a data file that cannot be parsed and
    holds no results and the error of parseDataFile, or belongs to a data
    file that can be parsed and holds results and an empty error text. *)
Theorem getResults_data_file_errors_stay_local (targets : list Target) :
  Forall (fun t => exists asts, readJsonnets (LintFiles t) = Ok asts) targets ->
  exists results,
    value (getResults targets) = Some (Ok results)
    /\ forall dataFile fr,
         results !! dataFile = Some fr ->
         match parseDataFile dataFile with
         | Err e => fr = {| Results := None; Error := e |}
         | Ok _ => exists rs, fr = {| Results := Some rs; Error := [] |}
         end.
Proof.
  intros Hread.
  destruct (getResults_from_spec targets ∅ Hread) as (results & Hv & Hkeep & Hlast).
  exists results. split; [done|]. intros X fr Hfr.
  destruct (decide (Exists (fun t => X ∈ DataFiles t) targets)) as [Hex|Hno].
  - destruct (last_target targets X Hex) as (before & t' & after & -> & Hin & Hafter).
    rewrite Forall_forall in Hread.
    destruct (Hread t') as [asts Hasts]; [apply elem_of_app; right; by left|].
    rewrite (Hlast before t' after X asts) in Hfr by done.
    pose proof (lint_spec X asts) as Hl.
    destruct (parseDataFile X) as [data|e].
    + destruct Hl as (rs & _ & Hl). rewrite Hl in Hfr. simplify_eq/=. eauto.
    + rewrite Hl in Hfr. by simplify_eq/=.
  - rewrite Hkeep in Hfr; [by rewrite lookup_empty in Hfr|].
    intros t Ht HX. apply Hno, Exists_exists. eauto.
Qed.

(** X19: Lint returns no error exactly when every stage succeeds: the
    configuration is read, the modules are listed and installed, the files
    are found, the error level is accepted, getResults returns a map, and
    Output returns no error for it; the targets are filtered only when file
    paths are given. And the engine is invoked only after the configuration,
    the modules, the files and the error level are settled. *)
Theorem Lint_succeeds_iff_every_stage_does (param : ParamLint) :
  (value (Lint param) = Some None
   <-> exists cfg modulesList modMap targets errLevel results,
         findAndReadConfig (ConfigFilePath param) = Ok cfg
         /\ ListModules cfg = Ok (modulesList, modMap)
         /\ installModules {| BaseDir := RootDir param |} modMap = None
         /\ findFiles cfg modulesList (RootDir param) = Ok targets
         /\ getErrorLevel (ErrorLevel param) = (errLevel, None)
         /\ value (getResults (if (0 <? length (FilePaths param))%nat
                               then filterTargets targets (FilePaths param)
                               else targets)) = Some (Ok results)
         /\ Output cfg errLevel results (Outputs param) (OutputSuccess param) = None)
  /\ (trace (Lint param) <> [] ->
      exists cfg modulesList modMap targets errLevel,
        findAndReadConfig (ConfigFilePath param) = Ok cfg
        /\ ListModules cfg = Ok (modulesList, modMap)
        /\ installModules {| BaseDir := RootDir param |} modMap = None
        /\ findFiles cfg modulesList (RootDir param) = Ok targets
        /\ getErrorLevel (ErrorLevel param) = (errLevel, None)
        /\ trace (Lint param)
           = trace (getResults (if (0 <? length (FilePaths param))%nat
                                then filterTargets targets (FilePaths param)
                                else targets))).
Proof.
  unfold Lint.
  destruct (findAndReadConfig (ConfigFilePath param)) as [cfg|e1];
    [|split; [split; [done|]; intros (? & ? & ? & ? & ? & ? & ? & _); done | done]].
  destruct (ListModules cfg) as [[modulesList modMap]|e2] eqn:Hmods;
    [|split; [split; [done|];
              intros (? & ? & ? & ? & ? & ? & ? & ? & _); simplify_eq; congruence
             | done]].
  destruct (installModules {| BaseDir := RootDir param |} modMap) as [e3|] eqn:Hinst;
    [split; [split; [done|];
             intros (? & ? & ? & ? & ? & ? & ? & ? & ? & _); simplify_eq; congruence
            | done]|].
  destruct (findFiles cfg modulesList (RootDir param)) as [targets|e4] eqn:Hfiles;
    [|split; [split; [done|];
              intros (? & ? & ? & ? & ? & ? & ? & ? & ? & ? & _);
              simplify_eq; congruence
             | done]].
  destruct (getErrorLevel (ErrorLevel param)) as [errLevel [e5|]] eqn:Hlvl;
    [split; [split; [done|];
             intros (? & ? & ? & ? & ? & ? & ? & ? & ? & ? & ? & _);
             simplify_eq; congruence
            | done]|].
  set (targets' := if (0 <? length (FilePaths param))%nat
                   then filterTargets targets (FilePaths param) else targets).
  unfold mbind, exec_mbind.
  rewrite (exec_eta (getResults targets')).
  destruct (value (getResults targets')) as [[results|e6]|] eqn:Hres.
  - rewrite exec_bind_Some. cbn [value trace fst snd mret exec_mret exec_ret].
    rewrite app_nil_r. split.
    + split.
      * intros [= Hout]. by exists cfg, modulesList, modMap, targets, errLevel, results.
      * intros (cfg' & ml' & mm' & ts' & lvl' & rs' & Hc & Hm & Hi & Hf & Hl & Hr & Hout).
        injection Hc as <-. rewrite Hmods in Hm. injection Hm as <- <-.
        rewrite Hfiles in Hf. injection Hf as <-.
        injection Hl as <-.
        unfold targets' in Hres. rewrite Hres in Hr. injection Hr as <-.
        by rewrite Hout.
    + intros _. by exists cfg, modulesList, modMap, targets, errLevel.
  - rewrite exec_bind_Some. cbn [value trace fst snd mret exec_mret exec_ret].
    rewrite app_nil_r. split.
    + split; [done|].
      intros (cfg' & ml' & mm' & ts' & lvl' & rs' & Hc & Hm & Hi & Hf & Hl & Hr & Hout).
      injection Hc as <-. rewrite Hmods in Hm. injection Hm as <- <-.
      rewrite Hfiles in Hf. injection Hf as <-.
      injection Hl as <-.
      unfold targets' in Hres. congruence.
    + intros _. by exists cfg, modulesList, modMap, targets, errLevel.
  - cbn [exec_bind value trace fst snd]. split.
    + split; [done|].
      intros (cfg' & ml' & mm' & ts' & lvl' & rs' & Hc & Hm & Hi & Hf & Hl & Hr & Hout).
      injection Hc as <-. rewrite Hmods in Hm. injection Hm as <- <-.
      rewrite Hfiles in Hf. injection Hf as <-.
      injection Hl as <-.
      unfold targets' in Hres. congruence.
    + intros _. by exists cfg, modulesList, modMap, targets, errLevel.
Qed.
End ControllerExtras.

(** * The further properties at work in the small world *)

Section ExtraWitnesses.
Import demo.

Lemma demo_target1_readable :
  Forall (fun t => exists asts,
            controller.readJsonnets (controller.LintFiles t) = Ok asts) [target1].
Proof. repeat (constructor; [eexists; by vm_compute|]). constructor. Qed.

(** The caller's configuration, nil or not, changes nothing. *)
Lemma Evaluates_ignores_caller_config_witness :
  lint.Evaluates (tla (str "1")) rules
  = lint.Evaluates (tla_configured (str "1")) rules.
Proof.
  apply (Evaluates_ignores_caller_config (tla (str "1")) (tla_configured (str "1"))
           rules); reflexivity.
Defined.

(** "ok.jsonnet" prints the empty list of findings: its result has no error
    text, and every stage succeeded. *)
Lemma Evaluates_result_without_error_witness :
  exists results r,
    value (lint.Evaluates (tla (str "1")) [rule (str "ok.jsonnet")]) = Some results
    /\ results !! 0%nat = Some (Some r)
    /\ domain.Error r = []
    /\ exists tlaB s,
         lint.Marshal (lint.ensureConfig
                         (lint.argumentOf (tla (str "1")) (rule (str "ok.jsonnet"))))
         = Ok tlaB
         /\ jsonnet.Evaluate tlaB (str "ok.jsonnet") = Ok s
         /\ domain.RawOutput r = s.
Proof.
  pose (r := lint.resultOf (rule (str "ok.jsonnet")) (Ok (str "[]"))).
  assert (Hv : value (lint.Evaluates (tla (str "1")) [rule (str "ok.jsonnet")])
               = Some [Some r]) by (by vm_compute).
  destruct (Evaluates_result_without_error (tla (str "1")) [rule (str "ok.jsonnet")]
              [Some r] 0%nat (rule (str "ok.jsonnet")) r Hv eq_refl eq_refl)
    as [Hiff _].
  destruct (proj1 Hiff eq_refl) as (tlaB & s & v & out & Hm & He & _ & _ & Hr).
  exists [Some r], r. split; [done|]. split; [done|]. split; [done|].
  exists tlaB, s. split; [done|]. split; [done|]. by rewrite Hr.
Defined.

(** The second of three targets has a rule file that is missing: getResults
    returns the error, after the invocations of the first target. *)
Lemma getResults_fails_at_first_unreadable_target_witness :
  controller.getResults [target1; target3; target2]
  = (Some (Err (str "open missing.jsonnet: file does not exist")),
     trace (controller.getResults [target1])).
Proof.
  apply (proj2 (getResults_fails_at_first_unreadable_target [target1; target3; target2])
           [target1] target3 [target2]).
  - reflexivity.
  - exact demo_target1_readable.
  - by vm_compute.
Defined.

(** The two targets: "a.json" is evaluated under both rules of the first
    target and under the rule of the second, "broken.json" under none. *)
Lemma getResults_invocations_witness :
  trace (controller.getResults targets)
  = [ (str "data=a.json", str "ok.jsonnet");
      (str "data=a.json", str "fail.jsonnet");
      (str "data=a.json", str "ok.jsonnet");
      (str "data=b.json", str "ok.jsonnet") ].
Proof.
  rewrite (getResults_invocations targets demo_targets_readable). by vm_compute.
Defined.

(** "broken.json" cannot be parsed: its entry holds the error and no
    results. *)
Lemma getResults_data_file_errors_stay_local_witness :
  exists results,
    value (controller.getResults targets) = Some (Ok results)
    /\ results !! str "broken.json"
       = Some {| controller.Results := None;
                 controller.Error := str "invalid character" |}.
Proof.
  destruct (getResults_data_file_errors_stay_local targets demo_targets_readable)
    as (results & Hv & Hall).
  exists results. split; [exact Hv|].
  assert (Hsome : is_Some (results !! str "broken.json")).
  { pose proof Hv as Hc. vm_compute in Hc. injection Hc as <-.
    eexists. vm_compute. reflexivity. }
  destruct Hsome as [fr Hfr]. rewrite Hfr. f_equal.
  exact (Hall (str "broken.json") fr Hfr).
Defined.

(** The run with the default error level succeeds, every stage having
    succeeded. *)
Lemma Lint_succeeds_iff_every_stage_does_witness :
  value (controller.Lint (param [])) = Some None
  /\ exists cfg modulesList modMap ts,
       controller.findAndReadConfig (controller.ConfigFilePath (param [])) = Ok cfg
       /\ controller.ListModules cfg = Ok (modulesList, modMap)
       /\ controller.findFiles cfg modulesList (controller.RootDir (param [])) = Ok ts.
Proof.
  assert (Hv : value (controller.Lint (param [])) = Some None) by (by vm_compute).
  split; [exact Hv|].
  destruct (proj1 (proj1 (Lint_succeeds_iff_every_stage_does (param []))) Hv)
    as (cfg & modulesList & modMap & ts & _ & _ & Hc & Hm & _ & Hf & _).
  by exists cfg, modulesList, modMap, ts.
Defined.
End ExtraWitnesses.
